(** * higuchi: the [serve] command (cmd/serve.go)

    A shallow embedding of [runServe], the function that wires the proxy
    together: it reads the configuration, loads the credential table,
    builds the worker pool with its filter chains, opens the listeners and
    waits for a stop signal.

    The file [cmd/serve.go] comes in two revisions.  The current one is
    embedded at the top level; of the earlier one, the worker factory is
    embedded in [Module v1].

    Go packages that [runServe] calls but that are not part of the sources
    at hand ([config], [hasher], [auth], [filter], [dispatcher], [worker],
    [pool], [server], [zap], [os/signal]) are represented by the values
    their constructors build and, where they touch the outside world, by
    the oracle record [World]. *)

From Stdlib Require Import ZArith String Ascii List Bool Sorted Lia.
From stdpp Require Import base decidable option list gmap strings.

Local Open Scope string_scope.
Local Open Scope list_scope.

(** ** Errors *)

(** A Go [error] value: [None] is [nil]. *)
Definition error : Type := option string.
Definition nil_error : error := None.

(** [fmt.Errorf(prefix ++ "%v", err)]. *)
Definition Errorf (prefix : string) (err : string) : error :=
  Some (prefix +:+ err).

(** A Go [(value, error)] result whose value is only used when the error
    is [nil]. *)
Inductive result (A : Type) : Type :=
| Ok (a : A)
| Err (err : string).
Arguments Ok {A} a.
Arguments Err {A} err.

(** ** package hasher *)

Module hasher.

(** The digest type is declared outside [cmd/serve.go]; [runServe] only
    ever calls its method [Compare], so a digest is represented by that
    method. *)
Record Argon2Digest : Type := { Compare : string -> Z }.

(** [hasher.NewArgon2Hasher(pepper)]. *)
Record Argon2Hasher : Type := NewArgon2Hasher { hasher_pepper : list Byte.byte }.

End hasher.

(** ** package auth *)

Module auth.

(** [auth.NewArgon2Auth(h)]. *)
Record Argon2Auth : Type := NewArgon2Auth { auth_hasher : hasher.Argon2Hasher }.

End auth.

(** ** Values of type [interface{}] stored in the credential table *)

Inductive iface : Type :=
| INil
| IString (v : string)
| IArgon2Digest (v : hasher.Argon2Digest)
| IOther (dynamic_type : string).

(** ** package config *)

(** The fields of the configuration that [runServe] reads, named by their
    access path ([cfg.Filters.Auth.Enabled] is [Filters_Auth_Enabled]). *)
Record Config : Type := {
  Server_Listeners : list string;
  Worker_BufferSize : Z;
  (** Modelled from the spec: the worker-pool capacity that section 6 lists
      among the configuration values.  The [config] package is not among
      the sources, and [runServe] reads no such field. *)
  Worker_PoolSize : Z;
  Logger_Mode : string;
  Filters_Auth_Enabled : bool;
  Filters_Auth_PasswordsFile : string;
  Filters_Certbot_Enabled : bool;
  Filters_Certbot_Hostname : string;
  Filters_Certbot_Webroot : string;
  Filters_Certbot_ChallengePath : string;
  Filters_Forwarded_Enabled : bool;
  Filters_Healthcheck_Enabled : bool;
  Filters_Healthcheck_Method : string;
  Filters_Healthcheck_Path : string;
}.

(** ** package dispatcher *)

Module dispatcher.

Record TCPDispatcher : Type := NewTCPDispatcher { bufferSize : Z }.

End dispatcher.

(** ** package filter *)

Module filter.

Record CertbotConfig : Type := {
  Hostname : string;
  Webroot : string;
  ChallengePath : string;
}.

Record DispatchFilter : Type :=
  NewDispatchFilter { dispatch : dispatcher.TCPDispatcher }.

(** The stages of the nested HTTP chain, each named after the
    constructor call that builds it. *)
Inductive HTTPFilter : Type :=
| DefaultForwardedFilter
| NewCertbotFilter (cfg : CertbotConfig)
| NewAuthFilter (users : gmap string iface) (compare : string -> iface -> bool)
| NewTunnelFilter (bufferSize : Z)
| NewForwardFilter (df : DispatchFilter).

(** The top-level stages. *)
Inductive Filter : Type :=
| NewHealthCheckFilter (method path : string)
| NewParseFilter (hfs : list HTTPFilter).

End filter.

(** ** package worker *)

Module worker.

(** [worker.New(num, filters...)]. *)
Record Worker : Type := New { num : Z; filters : list filter.Filter }.

End worker.

(** ** package pool *)

Module pool.

(** Modelled from the spec: package [pool] is not among the sources.
    Section 3 describes the pool as "a fixed-capacity array of Worker
    instances created once via a factory function indexed 0..N-1; each
    element is either idle or bound to exactly one in-flight
    Connection", and section 4.5 gives [acquire] and [release]. *)
Record Slot : Type := { slot_worker : worker.Worker; slot_bound : bool }.

Definition PreallocatedPool : Type := list Slot.

Definition NewPreallocatedPool
    (factory : Z -> worker.Worker) (size : Z) : PreallocatedPool :=
  map (fun i => {| slot_worker := factory (Z.of_nat i); slot_bound := false |})
      (seq 0 (Z.to_nat size)).

Definition capacity (p : PreallocatedPool) : nat := length p.

Definition workers (p : PreallocatedPool) : list worker.Worker :=
  map slot_worker p.

(** [acquire]: the first idle worker becomes bound; [None] when every
    worker is bound (the caller waits). *)
Fixpoint acquire (p : PreallocatedPool)
    : option (worker.Worker * PreallocatedPool) :=
  match p with
  | [] => None
  | s :: rest =>
      if slot_bound s then
        match acquire rest with
        | Some (w, rest') => Some (w, s :: rest')
        | None => None
        end
      else Some (slot_worker s,
                 {| slot_worker := slot_worker s; slot_bound := true |} :: rest)
  end.

(** [release]: the slot of worker [n] becomes idle again. *)
Definition release (n : Z) (p : PreallocatedPool) : PreallocatedPool :=
  map (fun s =>
         if Z.eqb (worker.num (slot_worker s)) n
         then {| slot_worker := slot_worker s; slot_bound := false |}
         else s) p.

Inductive Op : Type := Acquire | Release (n : Z).

Definition step (p : PreallocatedPool) (o : Op) : PreallocatedPool :=
  match o with
  | Acquire => match acquire p with Some (_, p') => p' | None => p end
  | Release n => release n p
  end.

Definition steps (p : PreallocatedPool) (ops : list Op) : PreallocatedPool :=
  fold_left step ops p.

End pool.

(** ** package zap *)

Module zap.

(** The logger obtained from [cfg.Logger.Create()]. *)
Record Logger : Type := Create { logger_cfg : Config }.

End zap.

(** ** package server *)

Module server.

Record Config : Type := {
  Logger : zap.Logger;
  Pool : pool.PreallocatedPool;
}.

(** A server and the [(network, address)] pairs it listens on. *)
Record Server : Type := {
  config : Config;
  listeners : list (string * string);
}.

Definition New (c : Config) : Server := {| config := c; listeners := [] |}.

End server.

(** ** Signals *)

Inductive Signal : Type := SIGHUP | SIGINT | SIGQUIT | SIGTERM | SIGUSR1.

#[global] Instance Signal_eq_dec : EqDecision Signal.
Proof. solve_decision. Defined.

(** [os.Interrupt]. *)
Definition os_Interrupt : Signal := SIGINT.

(** [sig.String()]. *)
Definition Signal_String (sig : Signal) : string :=
  match sig with
  | SIGHUP => "hangup"
  | SIGINT => "interrupt"
  | SIGQUIT => "quit"
  | SIGTERM => "terminated"
  | SIGUSR1 => "user defined signal 1"
  end.

(** What the Go runtime does with a signal nobody asked to be notified of:
    [SIGHUP], [SIGINT], [SIGTERM] and [SIGQUIT] end the program, other
    signals are caught and dropped. *)
Definition default_exits (sig : Signal) : bool :=
  match sig with
  | SIGUSR1 => false
  | _ => true
  end.

(** ** The outside world *)

(** What the collaborators answer.  [w_Listen] sees the listeners that are
    already open; [w_signals] are the signals the process receives, in
    order, from the moment [signal.Notify] has been called. *)
Record World : Type := {
  w_ReadConfig : result Config;
  w_Pepper : Config -> result (list Byte.byte);
  w_ReadPasswordsFile :
    auth.Argon2Auth -> string -> result (gmap string hasher.Argon2Digest);
  w_Listen : list (string * string) -> string -> string -> error;
  w_signals : list Signal;
  w_Close : list (string * string) -> error;
}.

(** ** Observable calls *)

Inductive Event : Type :=
| EvReadConfig
| EvPepper
| EvReadPasswordsFile (aa : auth.Argon2Auth) (name : string)
| EvServerNew (c : server.Config)
| EvListen (network address : string)
| EvInfo (msg : string) (fields : list (string * string))
| EvNotify (sigs : list Signal)
| EvRecv (sig : Signal)
| EvClose
| EvSync.

(** How a run of [runServe] ends. *)
Inductive Outcome : Type :=
| Returned (err : error)
| Blocked
| Exited (sig : Signal).

(** ** A monad for Go statements: a trace of calls and a control flow *)

Inductive Flow (A : Type) : Type :=
| Next (a : A)
| Return (err : error)
| Block
| Exit (sig : Signal).
Arguments Next {A} a.
Arguments Return {A} err.
Arguments Block {A}.
Arguments Exit {A} sig.

Definition M (A : Type) : Type := (list Event * Flow A)%type.

Definition ret {A} (a : A) : M A := ([], Next a).

Definition bind {A B} (m : M A) (f : A -> M B) : M B :=
  match m with
  | (t, Next a) => let (t', r) := f a in (t ++ t', r)
  | (t, Return e) => (t, Return e)
  | (t, Block) => (t, Block)
  | (t, Exit sig) => (t, Exit sig)
  end.

Notation "'let*' x := m 'in' k" := (bind m (fun x => k))
  (at level 10, x name, m at level 200, k at level 200).
Notation "'run*' m 'in' k" := (bind m (fun _ => k))
  (at level 10, m at level 200, k at level 200).

Definition call (e : Event) : M unit := ([e], Next tt).

(** [return err]. *)
Definition return_ {A} (err : error) : M A := ([], Return err).

(** [defer d]: the call [d] runs when the rest of the function returns. *)
Definition defer (d : Event) (body : M Empty_set) : M Empty_set :=
  match body with
  | (t, Return e) => (t ++ [d], Return e)
  | other => other
  end.

Definition run (m : M Empty_set) : list Event * Outcome :=
  match m with
  | (t, Next a) => match a with end
  | (t, Return e) => (t, Returned e)
  | (t, Block) => (t, Blocked)
  | (t, Exit sig) => (t, Exited sig)
  end.

(** ** Strings *)

(** [strings.HasPrefix(s, prefix)]. *)
Definition HasPrefix (s prefix : string) : bool := String.prefix prefix s.

(** [s[n:]]. *)
Definition slice_from (s : string) (n : nat) : string :=
  String.substring n (String.length s - n) s.

Definition unixAddressPrefix : string := "unix:".

Definition unixAddressPrefixLength : nat := String.length unixAddressPrefix.

(** ** The current revision of [runServe] *)

(** The closure [authCompare] (a type switch on the stored secret). *)
Definition authCompare (password : string) (i : iface) : bool :=
  match i with
  | IString v => String.eqb password v
  | IArgon2Digest v => Z.eqb (hasher.Compare v password) 0
  | _ => false
  end.

(** [users := make(map[string]interface{})]. *)
Definition make_users : gmap string iface := ∅.

(** [for user, ad := range au { users[user] = ad }]. *)
Definition copy_users (au : gmap string hasher.Argon2Digest)
    (users : gmap string iface) : gmap string iface :=
  map_fold (fun user ad users => <[user := IArgon2Digest ad]> users) users au.

(** [var certbotConfig filter.CertbotConfig] followed by the guarded
    assignments of its three fields. *)
Definition certbotConfig_of (cfg : Config) : filter.CertbotConfig :=
  let certbotConfig :=
    {| filter.Hostname := ""; filter.Webroot := ""; filter.ChallengePath := "" |} in
  if Filters_Certbot_Enabled cfg then
    {| filter.Hostname := Filters_Certbot_Hostname cfg;
       filter.Webroot := Filters_Certbot_Webroot cfg;
       filter.ChallengePath := Filters_Certbot_ChallengePath cfg |}
  else certbotConfig.

(** The factory closure handed to [pool.NewPreallocatedPool]. *)
Definition factory (cfg : Config) (certbotConfig : filter.CertbotConfig)
    (users : gmap string iface) (num : Z) : worker.Worker :=
  let hfs : list filter.HTTPFilter := [] in
  let hfs :=
    if Filters_Forwarded_Enabled cfg
    then hfs ++ [filter.DefaultForwardedFilter] else hfs in
  let hfs :=
    if Filters_Certbot_Enabled cfg
    then hfs ++ [filter.NewCertbotFilter certbotConfig] else hfs in
  let hfs :=
    if Filters_Auth_Enabled cfg
    then hfs ++ [filter.NewAuthFilter users authCompare] else hfs in
  let df :=
    filter.NewDispatchFilter
      (dispatcher.NewTCPDispatcher (Worker_BufferSize cfg)) in
  let hfs :=
    hfs ++ [filter.NewTunnelFilter (Worker_BufferSize cfg);
            filter.NewForwardFilter df] in
  let filters : list filter.Filter := [] in
  let filters :=
    if Filters_Healthcheck_Enabled cfg
    then filters ++ [filter.NewHealthCheckFilter
                       (Filters_Healthcheck_Method cfg)
                       (Filters_Healthcheck_Path cfg)]
    else filters in
  let filters := filters ++ [filter.NewParseFilter hfs] in
  worker.New num filters.

(** [s.Listen(network, addr)]: the error is the world's answer; on success
    the server has one more listener. *)
Definition Listen (w : World) (s : server.Server) (network addr : string)
    : M (server.Server * error) :=
  run* call (EvListen network addr) in
  match w_Listen w (server.listeners s) network addr with
  | Some e => ret (s, Some e)
  | None =>
      ret ({| server.config := server.config s;
              server.listeners := server.listeners s ++ [(network, addr)] |},
           nil_error)
  end.

(** The first statements of the loop body: the network and the address
    that a configured listener address stands for. *)
Definition listen_target (addr : string) : string * string :=
  let network := "tcp" in
  if HasPrefix addr unixAddressPrefix
  then ("unix", slice_from addr unixAddressPrefixLength)
  else (network, addr).

(** [for _, addr := range cfg.Server.Listeners { ... }]. *)
Fixpoint listenLoop (w : World) (s : server.Server) (addrs : list string)
    : M server.Server :=
  match addrs with
  | [] => ret s
  | addr :: rest =>
      let '(network, addr) := listen_target addr in
      let* r := Listen w s network addr in
      let '(s, err) := r in
      match err with
      | Some e => return_ (Some e)
      | None =>
          run* call (EvInfo ("Higuchi listening at " +:+ addr) []) in
          listenLoop w s rest
      end
  end.

(** [signal.Notify(sigCh, sigs...)]: the channel is represented by the
    signals it is subscribed to. *)
Definition Notify (sigs : list Signal) : M (list Signal) :=
  run* call (EvNotify sigs) in ret sigs.

(** [<-sigCh]: signals arrive in order.  A subscribed one is received; an
    unsubscribed one either ends the process or is dropped; with nothing
    left to arrive the receive blocks for good. *)
Fixpoint recv (sigCh : list Signal) (incoming : list Signal) : M Signal :=
  match incoming with
  | [] => ([], Block)
  | sig :: later =>
      if bool_decide (sig ∈ sigCh) then run* call (EvRecv sig) in ret sig
      else if default_exits sig then ([], Exit sig)
      else recv sigCh later
  end.

(** [s.Close()]. *)
Definition Close (w : World) (s : server.Server) : M error :=
  run* call EvClose in ret (w_Close w (server.listeners s)).

Definition runServe_body (w : World) : M Empty_set :=
  run* call EvReadConfig in
  match w_ReadConfig w with
  | Err err => return_ (Errorf "error while reading config: " err)
  | Ok cfg =>
  let logger := zap.Create cfg in
  defer EvSync (

  run* call EvPepper in
  match w_Pepper w cfg with
  | Err err => return_ (Errorf "error while decoding pepper: " err)
  | Ok pepper =>

  let users := make_users in

  let* users :=
    (if Filters_Auth_Enabled cfg then
       let h := hasher.NewArgon2Hasher pepper in
       let aa := auth.NewArgon2Auth h in
       run* call (EvReadPasswordsFile aa (Filters_Auth_PasswordsFile cfg)) in
       match w_ReadPasswordsFile w aa (Filters_Auth_PasswordsFile cfg) with
       | Err err =>
           return_ (Errorf "error while reading passwords file: " err)
       | Ok au => ret (copy_users au users)
       end
     else ret users) in

  let certbotConfig := certbotConfig_of cfg in

  let c :=
    {| server.Logger := logger;
       server.Pool :=
         pool.NewPreallocatedPool (factory cfg certbotConfig users) 1024 |} in
  run* call (EvServerNew c) in
  let s := server.New c in

  let* s := listenLoop w s (Server_Listeners cfg) in

  let* sigCh := Notify [os_Interrupt; SIGTERM] in
  let* sig := recv sigCh (w_signals w) in
  run* call (EvInfo "Received stop signal" [("signal", Signal_String sig)]) in

  let* err := Close w s in
  return_ err
  end)
  end.

Definition runServe (w : World) : list Event * Outcome :=
  run (runServe_body w).

(** ** The earlier revision of [cmd/serve.go] *)

Module v1.

(** The [filter] package as the earlier revision uses it: the Certbot
    filter takes a hostname and a webroot, and there is neither a
    Forwarded nor a HealthCheck filter. *)
Inductive HTTPFilter : Type :=
| NewCertbotFilter (hostname webroot : string)
| NewAuthFilter (users : gmap string iface) (compare : string -> iface -> bool)
| NewTunnelFilter (bufferSize : Z)
| NewForwardFilter (df : filter.DispatchFilter).

Inductive Filter : Type :=
| NewParseFilter (hfs : list HTTPFilter).

(** [worker.New(num, filter.NewParseFilter(hfs...))]. *)
Record Worker : Type := New { num : Z; filters : list Filter }.

(** The factory closure of the earlier [runServe]. *)
Definition factory (cfg : Config) (users : gmap string iface) (num : Z)
    : Worker :=
  let hfs : list HTTPFilter := [] in
  let hfs :=
    if Filters_Certbot_Enabled cfg
    then hfs ++ [NewCertbotFilter (Filters_Certbot_Hostname cfg)
                                  (Filters_Certbot_Webroot cfg)]
    else hfs in
  let hfs :=
    if Filters_Auth_Enabled cfg
    then hfs ++ [NewAuthFilter users authCompare] else hfs in
  let df :=
    filter.NewDispatchFilter
      (dispatcher.NewTCPDispatcher (Worker_BufferSize cfg)) in
  let hfs :=
    hfs ++ [NewTunnelFilter (Worker_BufferSize cfg); NewForwardFilter df] in
  New num [NewParseFilter hfs].

End v1.

(** ** Filter kinds *)

Inductive HTTPKind : Type := Forwarded | Certbot | Auth | Tunnel | Forward.

Inductive Kind : Type := HealthCheck | Parse (nested : list HTTPKind).

#[global] Instance HTTPKind_eq_dec : EqDecision HTTPKind.
Proof. solve_decision. Defined.

#[global] Instance Kind_eq_dec : EqDecision Kind.
Proof. solve_decision. Defined.

Definition http_kind (f : filter.HTTPFilter) : HTTPKind :=
  match f with
  | filter.DefaultForwardedFilter => Forwarded
  | filter.NewCertbotFilter _ => Certbot
  | filter.NewAuthFilter _ _ => Auth
  | filter.NewTunnelFilter _ => Tunnel
  | filter.NewForwardFilter _ => Forward
  end.

Definition kind (f : filter.Filter) : Kind :=
  match f with
  | filter.NewHealthCheckFilter _ _ => HealthCheck
  | filter.NewParseFilter hfs => Parse (map http_kind hfs)
  end.

(** The sequence of filter kinds of a worker's chain. *)
Definition chain_kinds (wk : worker.Worker) : list Kind :=
  map kind (worker.filters wk).

Definition v1_http_kind (f : v1.HTTPFilter) : HTTPKind :=
  match f with
  | v1.NewCertbotFilter _ _ => Certbot
  | v1.NewAuthFilter _ _ => Auth
  | v1.NewTunnelFilter _ => Tunnel
  | v1.NewForwardFilter _ => Forward
  end.

Definition v1_kind (f : v1.Filter) : Kind :=
  match f with
  | v1.NewParseFilter hfs => Parse (map v1_http_kind hfs)
  end.

Definition v1_chain_kinds (wk : v1.Worker) : list Kind :=
  map v1_kind (v1.filters wk).

(** The position of a stage in the nested chain. *)
Definition rank (k : HTTPKind) : nat :=
  match k with
  | Forwarded => 0
  | Certbot => 1
  | Auth => 2
  | Tunnel => 3
  | Forward => 4
  end.

(** The nested chains handed to the Parse filters of a top-level chain. *)
Definition parse_chains (fs : list filter.Filter) : list (list filter.HTTPFilter) :=
  flat_map (fun f => match f with
                     | filter.NewParseFilter hfs => [hfs]
                     | _ => []
                     end) fs.

(** ** Reading a trace *)

Definition servers_created (t : list Event) : list server.Config :=
  flat_map (fun e => match e with EvServerNew c => [c] | _ => [] end) t.

Definition listen_calls (t : list Event) : list (string * string) :=
  flat_map (fun e => match e with EvListen n a => [(n, a)] | _ => [] end) t.

Definition passwords_reads (t : list Event) : list string :=
  flat_map (fun e => match e with EvReadPasswordsFile _ n => [n] | _ => [] end) t.

Definition is_notify (e : Event) : bool :=
  match e with EvNotify _ => true | _ => false end.

Definition is_recv (e : Event) : bool :=
  match e with EvRecv _ => true | _ => false end.

Definition is_close (e : Event) : bool :=
  match e with EvClose => true | _ => false end.

(** Does the trace reach the wait phase: a subscription to signals, a
    received signal or a call of [Close]? *)
Definition waits (t : list Event) : bool :=
  existsb (fun e => is_notify e || is_recv e || is_close e) t.

(** The workers of every pool that a run hands to [server.New]. *)
Definition workers_built (w : World) : list worker.Worker :=
  flat_map (fun c => pool.workers (server.Pool c))
           (servers_created (fst (runServe w))).

(** * Vocabulary of the properties *)

(** ** Abbreviations for what [runServe] builds *)

(** A stage that is present exactly when its flag is set. *)
Definition optional {A} (enabled : bool) (x : A) : list A :=
  if enabled then [x] else [].

(** The nested chain the factory builds. *)
Definition nested_chain (cfg : Config) (cc : filter.CertbotConfig)
    (users : gmap string iface) : list filter.HTTPFilter :=
  optional (Filters_Forwarded_Enabled cfg) filter.DefaultForwardedFilter
  ++ optional (Filters_Certbot_Enabled cfg) (filter.NewCertbotFilter cc)
  ++ optional (Filters_Auth_Enabled cfg) (filter.NewAuthFilter users authCompare)
  ++ [filter.NewTunnelFilter (Worker_BufferSize cfg);
      filter.NewForwardFilter
        (filter.NewDispatchFilter
           (dispatcher.NewTCPDispatcher (Worker_BufferSize cfg)))].

(** [auth.NewArgon2Auth(hasher.NewArgon2Hasher(pepper))]. *)
Definition argon2_auth (pepper : list Byte.byte) : auth.Argon2Auth :=
  auth.NewArgon2Auth (hasher.NewArgon2Hasher pepper).

(** The argument of [server.New] for a configuration and a credential
    table. *)
Definition server_config (cfg : Config) (users : gmap string iface)
    : server.Config :=
  {| server.Logger := zap.Create cfg;
     server.Pool :=
       pool.NewPreallocatedPool (factory cfg (certbotConfig_of cfg) users) 1024 |}.

(** The signals [runServe] subscribes to. *)
Definition stop_signals : list Signal := [os_Interrupt; SIGTERM].

(** The part of a started run up to the end of the listen loop: nothing
    of the wait phase happens in it, and its listen calls are those of
    the loop. *)
Definition startup_trace (cfg : Config) (users : gmap string iface)
    (tu tl : list Event) : list Event :=
  [EvReadConfig; EvPepper] ++ tu ++ [EvServerNew (server_config cfg users)] ++ tl.

(** The calls of the wait phase once the signal [sig] has arrived. *)
Definition stop_trace (sig : Signal) : list Event :=
  [EvNotify stop_signals; EvRecv sig;
   EvInfo "Received stop signal" [("signal", Signal_String sig)];
   EvClose; EvSync].

(** ** The listen loop and the receive, as relations *)

(** The events a listen loop can emit. *)
Inductive listen_event : Event -> Prop :=
| le_listen n a : listen_event (EvListen n a)
| le_info m : listen_event (EvInfo m []).

(** The results a listen loop can have. *)
Inductive listen_flow : Flow server.Server -> Prop :=
| lf_next s : listen_flow (Next s)
| lf_fail e : listen_flow (Return (Some e)).

(** The first error the world answers when the targets are bound in
    order, starting from the listeners [bound]. *)
Fixpoint bind_errors (w : World) (bound targets : list (string * string))
    : error :=
  match targets with
  | [] => nil_error
  | (network, a) :: rest =>
      match w_Listen w bound network a with
      | Some e => Some e
      | None => bind_errors w (bound ++ [(network, a)]) rest
      end
  end.

(** What the listener section of the configuration means: an address that
    starts with "unix:" is a local socket at the rest of the address, any
    other address is a TCP address. *)
Definition listens_as (addr : string) (target : string * string) : Prop :=
  (exists rest, addr = "unix:" +:+ rest /\ target = ("unix", rest))
  \/ ((forall rest, addr <> "unix:" +:+ rest) /\ target = ("tcp", addr)).

(** A signal that is neither delivered to the channel nor ends the
    process. *)
Definition dropped (sigCh : list Signal) (sig : Signal) : Prop :=
  (sig ∉ sigCh) /\ (default_exits sig = false).

Inductive recv_shape (sigCh incoming : list Signal) : M Signal -> Prop :=
| recv_blocks :
    Forall (dropped sigCh) incoming ->
    recv_shape sigCh incoming ([], Block)
| recv_exits pre sig post :
    incoming = pre ++ sig :: post ->
    Forall (dropped sigCh) pre ->
    sig ∉ sigCh -> default_exits sig = true ->
    recv_shape sigCh incoming ([], Exit sig)
| recv_gets pre sig post :
    incoming = pre ++ sig :: post ->
    Forall (dropped sigCh) pre ->
    sig ∈ sigCh ->
    recv_shape sigCh incoming ([EvRecv sig], Next sig).

(** ** The shapes of a run *)

(** Loading the credential table: the calls made and the table built. *)
Inductive users_loaded (w : World) (cfg : Config) (pepper : list Byte.byte)
    : list Event -> gmap string iface -> Prop :=
| ul_disabled :
    Filters_Auth_Enabled cfg = false ->
    users_loaded w cfg pepper [] ∅
| ul_enabled au :
    Filters_Auth_Enabled cfg = true ->
    w_ReadPasswordsFile w (argon2_auth pepper) (Filters_Auth_PasswordsFile cfg)
      = Ok au ->
    users_loaded w cfg pepper
      [EvReadPasswordsFile (argon2_auth pepper) (Filters_Auth_PasswordsFile cfg)]
      (copy_users au ∅).

(** A started run: configuration, pepper and credentials were read and
    the server was created; [tl] and [fl] are what the listen loop did. *)
Record started (w : World) (cfg : Config) (users : gmap string iface)
    (tu tl : list Event) (fl : Flow server.Server) : Prop := {
  st_config : w_ReadConfig w = Ok cfg;
  st_pepper : exists pepper,
      w_Pepper w cfg = Ok pepper /\ users_loaded w cfg pepper tu users;
  st_listen :
    listenLoop w (server.New (server_config cfg users)) (Server_Listeners cfg)
      = (tl, fl);
}.

(** Every run of [runServe] has one of these seven shapes. *)
Inductive run_shape (w : World) : list Event -> Outcome -> Prop :=
| rs_config_failed err :
    w_ReadConfig w = Err err ->
    run_shape w [EvReadConfig]
      (Returned (Errorf "error while reading config: " err))
| rs_pepper_failed cfg err :
    w_ReadConfig w = Ok cfg ->
    w_Pepper w cfg = Err err ->
    run_shape w [EvReadConfig; EvPepper; EvSync]
      (Returned (Errorf "error while decoding pepper: " err))
| rs_passwords_failed cfg pepper err :
    w_ReadConfig w = Ok cfg ->
    w_Pepper w cfg = Ok pepper ->
    Filters_Auth_Enabled cfg = true ->
    w_ReadPasswordsFile w (argon2_auth pepper) (Filters_Auth_PasswordsFile cfg)
      = Err err ->
    run_shape w
      [EvReadConfig; EvPepper;
       EvReadPasswordsFile (argon2_auth pepper) (Filters_Auth_PasswordsFile cfg);
       EvSync]
      (Returned (Errorf "error while reading passwords file: " err))
| rs_listen_failed cfg users tu tl e :
    started w cfg users tu tl (Return (Some e)) ->
    run_shape w
      ([EvReadConfig; EvPepper] ++ tu ++ [EvServerNew (server_config cfg users)]
         ++ tl ++ [EvSync])
      (Returned (Some e))
| rs_blocked cfg users tu tl s :
    started w cfg users tu tl (Next s) ->
    recv_shape stop_signals (w_signals w) ([], Block) ->
    run_shape w
      ([EvReadConfig; EvPepper] ++ tu ++ [EvServerNew (server_config cfg users)]
         ++ tl ++ [EvNotify stop_signals])
      Blocked
| rs_exited cfg users tu tl s sig :
    started w cfg users tu tl (Next s) ->
    recv_shape stop_signals (w_signals w) ([], Exit sig) ->
    run_shape w
      ([EvReadConfig; EvPepper] ++ tu ++ [EvServerNew (server_config cfg users)]
         ++ tl ++ [EvNotify stop_signals])
      (Exited sig)
| rs_stopped cfg users tu tl s sig :
    started w cfg users tu tl (Next s) ->
    recv_shape stop_signals (w_signals w) ([EvRecv sig], Next sig) ->
    run_shape w
      ([EvReadConfig; EvPepper] ++ tu ++ [EvServerNew (server_config cfg users)]
         ++ tl
         ++ [EvNotify stop_signals; EvRecv sig;
             EvInfo "Received stop signal" [("signal", Signal_String sig)];
             EvClose; EvSync])
      (Returned (w_Close w (server.listeners s))).

(** Startup succeeds: the configuration and the pepper can be read, the
    passwords file can be read if Auth is enabled, and every listener can
    be bound. *)
Definition startup_ok (w : World) (cfg : Config) : Prop :=
  w_ReadConfig w = Ok cfg
  /\ (exists pepper,
        w_Pepper w cfg = Ok pepper
        /\ (Filters_Auth_Enabled cfg = true ->
            exists au,
              w_ReadPasswordsFile w (argon2_auth pepper)
                (Filters_Auth_PasswordsFile cfg) = Ok au))
  /\ bind_errors w [] (map listen_target (Server_Listeners cfg)) = nil_error.

(** The reading of the capacity statement that fails: the pool of every
    server a run creates has as many workers as the configuration asks
    for. *)
Definition pool_sized_by_config (w : World) : Prop :=
  forall cfg c,
    w_ReadConfig w = Ok cfg ->
    c ∈ servers_created (fst (runServe w)) ->
    Z.of_nat (pool.capacity (server.Pool c)) = Worker_PoolSize cfg.

(** ** Variations of a world *)

(** The same world with another passwords-file reader. *)
Definition with_ReadPasswordsFile (w : World)
    (rp : auth.Argon2Auth -> string -> result (gmap string hasher.Argon2Digest))
    : World :=
  {| w_ReadConfig := w_ReadConfig w;
     w_Pepper := w_Pepper w;
     w_ReadPasswordsFile := rp;
     w_Listen := w_Listen w;
     w_signals := w_signals w;
     w_Close := w_Close w |}.

(** ** Sample worlds *)

Definition sample_digest : hasher.Argon2Digest :=
  {| hasher.Compare := fun p => if String.eqb p "hunter2" then 0%Z else 1%Z |}.

Definition sample_config : Config :=
  {| Server_Listeners := ["0.0.0.0:8080"; "unix:/run/higuchi.sock"];
     Worker_BufferSize := 4096;
     Worker_PoolSize := 2;
     Logger_Mode := "production";
     Filters_Auth_Enabled := true;
     Filters_Auth_PasswordsFile := "/etc/higuchi/passwords";
     Filters_Certbot_Enabled := true;
     Filters_Certbot_Hostname := "proxy.example.org";
     Filters_Certbot_Webroot := "/var/www";
     Filters_Certbot_ChallengePath := "/.well-known/acme-challenge";
     Filters_Forwarded_Enabled := true;
     Filters_Healthcheck_Enabled := true;
     Filters_Healthcheck_Method := "GET";
     Filters_Healthcheck_Path := "/healthz" |}.

Definition sample_world : World :=
  {| w_ReadConfig := Ok sample_config;
     w_Pepper := fun _ => Ok [];
     w_ReadPasswordsFile := fun _ _ => Ok {[ "alice" := sample_digest ]};
     w_Listen := fun _ _ _ => nil_error;
     w_signals := [SIGUSR1; SIGTERM];
     w_Close := fun _ => nil_error |}.

(** The credential table of the sample world, and its first worker. *)
Definition sample_users : gmap string iface :=
  copy_users {[ "alice" := sample_digest ]} ∅.

Definition sample_worker : worker.Worker :=
  factory sample_config (certbotConfig_of sample_config) sample_users 0.

(** A configuration that only uses what the earlier revision knows. *)
Definition legacy_config : Config :=
  {| Server_Listeners := ["127.0.0.1:3128"];
     Worker_BufferSize := 512;
     Worker_PoolSize := 1024;
     Logger_Mode := "development";
     Filters_Auth_Enabled := true;
     Filters_Auth_PasswordsFile := "passwords.txt";
     Filters_Certbot_Enabled := false;
     Filters_Certbot_Hostname := "";
     Filters_Certbot_Webroot := "";
     Filters_Certbot_ChallengePath := "";
     Filters_Forwarded_Enabled := false;
     Filters_Healthcheck_Enabled := false;
     Filters_Healthcheck_Method := "";
     Filters_Healthcheck_Path := "" |}.

(** Worlds in which startup fails. *)
Definition world_without_config : World :=
  {| w_ReadConfig := Err "open higuchi.yaml: no such file or directory";
     w_Pepper := w_Pepper sample_world;
     w_ReadPasswordsFile := w_ReadPasswordsFile sample_world;
     w_Listen := w_Listen sample_world;
     w_signals := w_signals sample_world;
     w_Close := w_Close sample_world |}.

Definition world_without_passwords : World :=
  {| w_ReadConfig := w_ReadConfig sample_world;
     w_Pepper := w_Pepper sample_world;
     w_ReadPasswordsFile := fun _ _ => Err "permission denied";
     w_Listen := w_Listen sample_world;
     w_signals := w_signals sample_world;
     w_Close := w_Close sample_world |}.

Definition world_with_socket_taken : World :=
  {| w_ReadConfig := w_ReadConfig sample_world;
     w_Pepper := w_Pepper sample_world;
     w_ReadPasswordsFile := w_ReadPasswordsFile sample_world;
     w_Listen := fun _ network _ =>
       if String.eqb network "unix" then Some "address already in use"
       else nil_error;
     w_signals := w_signals sample_world;
     w_Close := w_Close sample_world |}.

(** A configuration with Auth disabled, and a world whose pepper does not
    decode. *)
Definition open_config : Config :=
  {| Server_Listeners := ["unix:/tmp/proxy.sock"];
     Worker_BufferSize := 1024;
     Worker_PoolSize := 16;
     Logger_Mode := "development";
     Filters_Auth_Enabled := false;
     Filters_Auth_PasswordsFile := "/nonexistent";
     Filters_Certbot_Enabled := false;
     Filters_Certbot_Hostname := "";
     Filters_Certbot_Webroot := "";
     Filters_Certbot_ChallengePath := "";
     Filters_Forwarded_Enabled := true;
     Filters_Healthcheck_Enabled := false;
     Filters_Healthcheck_Method := "";
     Filters_Healthcheck_Path := "" |}.

Definition world_with_bad_pepper : World :=
  {| w_ReadConfig := Ok open_config;
     w_Pepper := fun _ => Err "illegal base64 data at input byte 3";
     w_ReadPasswordsFile := fun _ _ => Err "no such file or directory";
     w_Listen := fun _ _ _ => nil_error;
     w_signals := [SIGINT];
     w_Close := fun _ => nil_error |}.

(** A world with Auth disabled and no passwords file to read. *)
Definition open_world : World :=
  {| w_ReadConfig := Ok open_config;
     w_Pepper := fun _ => Ok [];
     w_ReadPasswordsFile := fun _ _ => Err "no such file or directory";
     w_Listen := fun _ _ _ => nil_error;
     w_signals := [SIGINT];
     w_Close := fun _ => nil_error |}.

(** * Vocabulary of the further properties *)

(** What the loop body does for a listener that can be bound: the call of
    [Listen] and the log line that follows it. *)
Definition announce (addr : string) : list Event :=
  let '(network, a) := listen_target addr in
  [EvListen network a; EvInfo ("Higuchi listening at " +:+ a) []].

(** The call that loads the credential table, when there is one. *)
Definition passwords_call (cfg : Config) (pepper : list Byte.byte)
    : list Event :=
  if Filters_Auth_Enabled cfg
  then [EvReadPasswordsFile (argon2_auth pepper) (Filters_Auth_PasswordsFile cfg)]
  else [].

(** The calls of a successful startup, up to the subscription to the stop
    signals. *)
Definition startup_calls (cfg : Config) (pepper : list Byte.byte)
    (users : gmap string iface) : list Event :=
  [EvReadConfig; EvPepper] ++ passwords_call cfg pepper
    ++ [EvServerNew (server_config cfg users)]
    ++ flat_map announce (Server_Listeners cfg)
    ++ [EvNotify stop_signals].

(** How often a kind of call occurs in a trace. *)
Definition calls (p : Event -> bool) (t : list Event) : nat :=
  length (List.filter p t).

Definition is_sync (e : Event) : bool :=
  match e with EvSync => true | _ => false end.

Definition is_read_config (e : Event) : bool :=
  match e with EvReadConfig => true | _ => false end.

Definition is_pepper (e : Event) : bool :=
  match e with EvPepper => true | _ => false end.

Definition is_read_passwords (e : Event) : bool :=
  match e with EvReadPasswordsFile _ _ => true | _ => false end.

Definition is_server_new (e : Event) : bool :=
  match e with EvServerNew _ => true | _ => false end.

(** The calls that [runServe] makes at most once. *)
Definition once_only : list (Event -> bool) :=
  [is_read_config; is_pepper; is_read_passwords; is_server_new;
   is_notify; is_recv; is_close; is_sync].

(** The listeners are bound in order and the one after [pre] is the first
    that fails, with error [e]. *)
Definition first_bind_failure (w : World) (cfg : Config)
    (pre : list string) (addr : string) (post : list string) (e : string)
    : Prop :=
  Server_Listeners cfg = pre ++ addr :: post
  /\ bind_errors w [] (map listen_target pre) = nil_error
  /\ w_Listen w (map listen_target pre)
       (fst (listen_target addr)) (snd (listen_target addr)) = Some e.

(** The configuration, the pepper and, if Auth is enabled, the passwords
    file can be read. *)
Definition credentials_ok (w : World) (cfg : Config) (pepper : list Byte.byte)
    : Prop :=
  w_ReadConfig w = Ok cfg
  /\ w_Pepper w cfg = Ok pepper
  /\ (Filters_Auth_Enabled cfg = true ->
      exists au,
        w_ReadPasswordsFile w (argon2_auth pepper)
          (Filters_Auth_PasswordsFile cfg) = Ok au).

(** * The earlier revision of [runServe] *)

(** ** Traces of any kind of call *)

Section Trace.

Context {E : Type}.

Definition T (A : Type) : Type := (list E * Flow A)%type.

Definition tret {A} (a : A) : T A := ([], Next a).

Definition tbind {A B} (m : T A) (f : A -> T B) : T B :=
  match m with
  | (t, Next a) => let (t', r) := f a in (t ++ t', r)
  | (t, Return e) => (t, Return e)
  | (t, Block) => (t, Block)
  | (t, Exit sig) => (t, Exit sig)
  end.

Definition tcall (e : E) : T unit := ([e], Next tt).

Definition treturn {A} (err : error) : T A := ([], Return err).

Definition tdefer (d : E) (body : T Empty_set) : T Empty_set :=
  match body with
  | (t, Return e) => (t ++ [d], Return e)
  | other => other
  end.

Definition trun (m : T Empty_set) : list E * Outcome :=
  match m with
  | (t, Next a) => match a with end
  | (t, Return e) => (t, Returned e)
  | (t, Block) => (t, Blocked)
  | (t, Exit sig) => (t, Exited sig)
  end.

End Trace.

Notation "'let+' x := m 'in' k" := (tbind m (fun x => k))
  (at level 10, x name, m at level 200, k at level 200).
Notation "'run+' m 'in' k" := (tbind m (fun _ => k))
  (at level 10, m at level 200, k at level 200).

(** ** The collaborators of the earlier revision *)

(** A logger, named after the constructor that built it. *)
Inductive v1_Logger : Type := NewProduction | NewDevelopment.

(** The answers of the world, and those of the two logger
    constructors. *)
Record v1_World : Type := {
  v1_base : World;
  w_NewProduction : error;
  w_NewDevelopment : error;
}.

(** [server.Config{Logger: logger, Pool: pool.NewPreallocatedPool(factory,
    size)}]; the pool is represented by the arguments of its
    constructor. *)
Record v1_ServerConfig : Type := {
  v1_Logger_of : v1_Logger;
  v1_Pool_factory : Z -> v1.Worker;
  v1_Pool_size : Z;
}.

Record v1_Server : Type := {
  v1_config : v1_ServerConfig;
  v1_listeners : list (string * string);
}.

Definition v1_server_New (c : v1_ServerConfig) : v1_Server :=
  {| v1_config := c; v1_listeners := [] |}.

Inductive v1_Event : Type :=
| V1ReadConfig
| V1Pepper
| V1ReadPasswordsFile (aa : auth.Argon2Auth) (name : string)
| V1NewProduction
| V1NewDevelopment
| V1ServerNew (c : v1_ServerConfig)
| V1Listen (network address : string)
| V1Info (msg : string)
| V1Notify (sigs : list Signal)
| V1Recv (sig : Signal)
| V1Close
| V1Sync.

(** ** The function *)

Definition v1_Listen (w : World) (s : v1_Server) (network addr : string)
    : T (v1_Server * error) :=
  run+ tcall (V1Listen network addr) in
  match w_Listen w (v1_listeners s) network addr with
  | Some e => tret (s, Some e)
  | None =>
      tret ({| v1_config := v1_config s;
               v1_listeners := v1_listeners s ++ [(network, addr)] |},
            nil_error)
  end.

(** [for _, addr := range cfg.Server.Listeners { ... }]. *)
Fixpoint v1_listenLoop (w : World) (s : v1_Server) (addrs : list string)
    : T v1_Server :=
  match addrs with
  | [] => tret s
  | addr :: rest =>
      let network := "tcp" in
      let '(network, addr) :=
        if HasPrefix addr unixAddressPrefix
        then ("unix", slice_from addr unixAddressPrefixLength)
        else (network, addr) in
      let+ r := v1_Listen w s network addr in
      let '(s, err) := r in
      match err with
      | Some e => treturn (Some e)
      | None =>
          run+ tcall (V1Info ("Higuchi listening at " +:+ addr)) in
          v1_listenLoop w s rest
      end
  end.

Definition v1_Notify (sigs : list Signal) : T (list Signal) :=
  run+ tcall (V1Notify sigs) in tret sigs.

(** [<-sigCh]. *)
Fixpoint v1_recv (sigCh : list Signal) (incoming : list Signal) : T Signal :=
  match incoming with
  | [] => ([], Block)
  | sig :: later =>
      if bool_decide (sig ∈ sigCh) then run+ tcall (V1Recv sig) in tret sig
      else if default_exits sig then ([], Exit sig)
      else v1_recv sigCh later
  end.

Definition v1_Close (w : World) (s : v1_Server) : T error :=
  run+ tcall V1Close in tret (w_Close w (v1_listeners s)).

Definition v1_runServe_body (vw : v1_World) : T Empty_set :=
  let w := v1_base vw in
  run+ tcall V1ReadConfig in
  match w_ReadConfig w with
  | Err err => treturn (Errorf "error while reading config: " err)
  | Ok cfg =>

  run+ tcall V1Pepper in
  match w_Pepper w cfg with
  | Err err => treturn (Errorf "error while decoding pepper: " err)
  | Ok pepper =>

  let users := make_users in

  let+ users :=
    (if Filters_Auth_Enabled cfg then
       let h := hasher.NewArgon2Hasher pepper in
       let aa := auth.NewArgon2Auth h in
       run+ tcall (V1ReadPasswordsFile aa (Filters_Auth_PasswordsFile cfg)) in
       match w_ReadPasswordsFile w aa (Filters_Auth_PasswordsFile cfg) with
       | Err err =>
           treturn (Errorf "error while reading passwords file: " err)
       | Ok au => tret (copy_users au users)
       end
     else tret users) in

  let+ r :=
    (if String.eqb (Logger_Mode cfg) "production"
     then run+ tcall V1NewProduction in
          tret (NewProduction, w_NewProduction vw)
     else run+ tcall V1NewDevelopment in
          tret (NewDevelopment, w_NewDevelopment vw)) in
  let '(logger, err) := r in
  match err with
  | Some e => treturn (Some e)
  | None =>
  tdefer V1Sync (

  let c :=
    {| v1_Logger_of := logger;
       v1_Pool_factory := v1.factory cfg users;
       v1_Pool_size := 1024 |} in
  run+ tcall (V1ServerNew c) in
  let s := v1_server_New c in

  let+ s := v1_listenLoop w s (Server_Listeners cfg) in

  let+ sigCh := v1_Notify [os_Interrupt; SIGTERM] in
  let+ sig := v1_recv sigCh (w_signals w) in
  let+ err := v1_Close w s in
  treturn err
  )
  end
  end
  end.

Definition v1_runServe (vw : v1_World) : list v1_Event * Outcome :=
  trun (v1_runServe_body vw).

(** ** Reading a trace of the earlier revision *)

Definition v1_listen_calls (t : list v1_Event) : list (string * string) :=
  flat_map (fun e => match e with V1Listen n a => [(n, a)] | _ => [] end) t.

Definition v1_is_sync (e : v1_Event) : bool :=
  match e with V1Sync => true | _ => false end.

(** The error of the logger constructor that the mode selects. *)
Definition v1_logger_error (vw : v1_World) (cfg : Config) : error :=
  if String.eqb (Logger_Mode cfg) "production"
  then w_NewProduction vw else w_NewDevelopment vw.

(** The call of the logger constructor that the mode selects. *)
Definition v1_logger_call (cfg : Config) : v1_Event :=
  if String.eqb (Logger_Mode cfg) "production"
  then V1NewProduction else V1NewDevelopment.


(** Two results of a listen loop that name the same thing. *)
Definition same_flow (f1 : Flow v1_Server) (f2 : Flow server.Server) : Prop :=
  match f1, f2 with
  | Next s1, Next s2 => v1_listeners s1 = server.listeners s2
  | Return e1, Return e2 => e1 = e2
  | Block, Block => True
  | Exit g1, Exit g2 => g1 = g2
  | _, _ => False
  end.

(** A world for the earlier revision: the sample world with loggers that
    can be built, and one whose production logger cannot. *)
Definition v1_sample_world : v1_World :=
  {| v1_base := sample_world;
     w_NewProduction := nil_error;
     w_NewDevelopment := nil_error |}.


(** * Properties *)

(** ** The monad *)

Lemma bind_Next {A B} (t : list Event) (a : A) (f : A -> M B) :
  bind (t, Next a) f = (t ++ fst (f a), snd (f a)).
Proof. simpl. destruct (f a); reflexivity. Qed.

Lemma bind_call {B} (e : Event) (k : unit -> M B) :
  bind (call e) k = (e :: fst (k tt), snd (k tt)).
Proof. unfold call. rewrite bind_Next. reflexivity. Qed.

(** ** Reading traces *)

Lemma flat_map_none {A B} (f : A -> list B) (l : list A) :
  (forall x, x ∈ l -> f x = []) -> flat_map f l = [].
Proof.
  induction l as [|x l IH]; intros H; simpl; [reflexivity|].
  rewrite (H x) by apply list_elem_of_here.
  rewrite IH; [reflexivity|].
  intros y Hy. apply H. apply list_elem_of_further, Hy.
Qed.

(** ** The listen loop *)

Lemma listenLoop_shape (w : World) (addrs : list string) :
  forall s,
    Forall listen_event (fst (listenLoop w s addrs))
    /\ listen_flow (snd (listenLoop w s addrs)).
Proof.
  induction addrs as [|addr rest IH]; intros s; simpl.
  - split; constructor.
  - destruct (listen_target addr) as [network a].
    unfold Listen. rewrite bind_call. simpl.
    destruct (w_Listen w (server.listeners s) network a) as [e|]; simpl.
    + split; [repeat constructor | constructor].
    + match goal with
      | |- context [listenLoop w ?s' rest] =>
          destruct (IH s') as [Ht Hf];
          destruct (listenLoop w s' rest) as [t f]; simpl in *
      end.
      split; [repeat constructor; exact Ht | exact Hf].
Qed.

Lemma listenLoop_calls (w : World) (addrs : list string) :
  forall s,
    match bind_errors w (server.listeners s) (map listen_target addrs) with
    | None =>
        snd (listenLoop w s addrs)
          = Next {| server.config := server.config s;
                    server.listeners :=
                      server.listeners s ++ map listen_target addrs |}
        /\ listen_calls (fst (listenLoop w s addrs)) = map listen_target addrs
    | Some e =>
        snd (listenLoop w s addrs) = Return (Some e)
        /\ exists k, listen_calls (fst (listenLoop w s addrs))
                      = map listen_target (take k addrs)
    end.
Proof.
  induction addrs as [|addr rest IH]; intros s; simpl.
  - split; [|reflexivity]. destruct s; simpl. rewrite app_nil_r. reflexivity.
  - destruct (listen_target addr) as [network a] eqn:Ht.
    unfold Listen. rewrite bind_call. simpl.
    destruct (w_Listen w (server.listeners s) network a) as [e|]; simpl.
    + split; [reflexivity|]. exists 1%nat. simpl.
      rewrite Ht. reflexivity.
    + match goal with
      | |- context [listenLoop w ?s' rest] =>
          specialize (IH s'); destruct (listenLoop w s' rest) as [t f]
      end.
      simpl in *.
      destruct (bind_errors w _ (map listen_target rest)) as [e|].
      * destruct IH as [Hf [k Hk]]. split; [exact Hf|].
        exists (S k). simpl. rewrite Hk, Ht. reflexivity.
      * destruct IH as [Hf Hk]. split.
        -- rewrite Hf. rewrite <- app_assoc. reflexivity.
        -- rewrite Hk. reflexivity.
Qed.

(** ** Receiving the stop signal *)

Lemma recv_has_shape (sigCh incoming : list Signal) :
  recv_shape sigCh incoming (recv sigCh incoming).
Proof.
  induction incoming as [|sig later IH]; simpl.
  - apply recv_blocks. constructor.
  - case_bool_decide as Hin.
    + apply (recv_gets _ _ [] sig later); [reflexivity|constructor|exact Hin].
    + destruct (default_exits sig) eqn:Hx.
      * apply (recv_exits _ _ [] sig later); [reflexivity|constructor|exact Hin|exact Hx].
      * assert (Hd : dropped sigCh sig) by (split; assumption).
        inversion IH as [Hall|pre sg post Heq Hpre Hnin Hex|pre sg post Heq Hpre Hsg].
        -- apply recv_blocks. constructor; assumption.
        -- apply (recv_exits _ _ (sig :: pre) sg post);
             [rewrite Heq; reflexivity|constructor; assumption|exact Hnin|exact Hex].
        -- apply (recv_gets _ _ (sig :: pre) sg post);
             [rewrite Heq; reflexivity|constructor; assumption|exact Hsg].
Qed.

(** ** The shape of a run *)

(** Once the server exists: split on what the listen loop and the receive
    do, and pick the matching shape. *)
Ltac after_server_new w cfg users tu Hstart :=
  let tl := fresh "tl" in
  let fl := fresh "fl" in
  let Hl := fresh "Hl" in
  let Hf := fresh "Hf" in
  let Hr := fresh "Hr" in
  pose proof (recv_has_shape stop_signals (w_signals w)) as Hr;
  unfold stop_signals in Hr;
  match goal with
  | |- context [listenLoop w ?s ?l] =>
      destruct (listenLoop_shape w l s) as [_ Hf];
      destruct (listenLoop w s l) as [tl fl] eqn:Hl
  end;
  simpl in Hf; inversion Hf as [s Hs|e He]; subst fl; simpl;
  [ destruct (recv [os_Interrupt; SIGTERM] (w_signals w)) as [tr fr];
    inversion Hr as [Hall Htr|pre sig post Heq Hpre Hnin Hex Htr
                    |pre sig post Heq Hpre Hin Htr];
    subst tr fr; simpl; rewrite <- ?app_assoc; simpl;
    [ apply (rs_blocked w cfg users tu tl s)
    | apply (rs_exited w cfg users tu tl s sig)
    | apply (rs_stopped w cfg users tu tl s sig) ]
  | apply (rs_listen_failed w cfg users tu tl e) ];
  try (apply Hstart; exact Hl);
  try exact Hr.

Lemma runServe_shape (w : World) :
  run_shape w (fst (runServe w)) (snd (runServe w)).
Proof.
  unfold runServe, runServe_body.
  destruct (w_ReadConfig w) as [cfg|err] eqn:Hcfg; simpl.
  2:{ apply rs_config_failed. exact Hcfg. }
  destruct (w_Pepper w cfg) as [pepper|err] eqn:Hpep; simpl.
  2:{ apply (rs_pepper_failed w cfg); assumption. }
  destruct (Filters_Auth_Enabled cfg) eqn:Hen; simpl.
  - destruct (w_ReadPasswordsFile w _ _) as [au|err] eqn:Hpw; simpl.
    2:{ apply (rs_passwords_failed w cfg pepper); assumption. }
    assert (Hstart : forall tl fl,
      listenLoop w (server.New (server_config cfg (copy_users au ∅)))
        (Server_Listeners cfg) = (tl, fl) ->
      started w cfg (copy_users au ∅)
        [EvReadPasswordsFile (argon2_auth pepper) (Filters_Auth_PasswordsFile cfg)]
        tl fl).
    { intros tl fl Hl. split; [exact Hcfg| |exact Hl].
      exists pepper. split; [exact Hpep|]. apply ul_enabled; assumption. }
    after_server_new w cfg (copy_users au ∅)
      [EvReadPasswordsFile (argon2_auth pepper) (Filters_Auth_PasswordsFile cfg)]
      Hstart.
  - assert (Hstart : forall tl fl,
      listenLoop w (server.New (server_config cfg ∅))
        (Server_Listeners cfg) = (tl, fl) ->
      started w cfg ∅ [] tl fl).
    { intros tl fl Hl. split; [exact Hcfg| |exact Hl].
      exists pepper. split; [exact Hpep|]. apply ul_disabled; assumption. }
    after_server_new w cfg (∅ : gmap string iface) (@nil Event) Hstart.
Qed.

(** ** Prefixes and slices *)

Lemma slice_from_0 (s : string) : slice_from s 0 = s.
Proof.
  unfold slice_from. rewrite Nat.sub_0_r.
  induction s as [|c s IH]; simpl; [reflexivity|]. rewrite IH. reflexivity.
Qed.

Lemma slice_from_S (c : ascii) (s : string) (n : nat) :
  slice_from (String c s) (S n) = slice_from s n.
Proof. reflexivity. Qed.

Lemma slice_from_app (p rest : string) :
  slice_from (p +:+ rest) (String.length p) = rest.
Proof.
  induction p as [|c p IH].
  - apply slice_from_0.
  - change (slice_from (String c (p +:+ rest)) (S (String.length p)) = rest).
    rewrite slice_from_S. exact IH.
Qed.

Lemma HasPrefix_app (p rest : string) : HasPrefix (p +:+ rest) p = true.
Proof.
  unfold HasPrefix. induction p as [|c p IH]; simpl.
  - destruct rest; reflexivity.
  - destruct (ascii_dec c c) as [_|Hne]; [exact IH|contradiction].
Qed.

Lemma HasPrefix_split (p : string) :
  forall s, HasPrefix s p = true -> s = p +:+ slice_from s (String.length p).
Proof.
  unfold HasPrefix. induction p as [|c p IH]; intros s H.
  - symmetry. apply slice_from_0.
  - destruct s as [|d s]; simpl in H; [discriminate|].
    destruct (ascii_dec c d) as [->|Hne]; [|discriminate].
    change (String d s
            = String d (p +:+ slice_from (String d s) (S (String.length p)))).
    rewrite slice_from_S. f_equal. apply IH. exact H.
Qed.

(** ** Listener addresses *)

Lemma listen_target_listens_as (addr : string) :
  listens_as addr (listen_target addr).
Proof.
  unfold listen_target.
  destruct (HasPrefix addr unixAddressPrefix) eqn:Hp.
  - left. exists (slice_from addr unixAddressPrefixLength).
    split; [|reflexivity].
    apply (HasPrefix_split unixAddressPrefix). exact Hp.
  - right. split; [|reflexivity].
    intros rest ->.
    change ("unix:" +:+ rest) with (unixAddressPrefix +:+ rest) in Hp.
    rewrite HasPrefix_app in Hp. discriminate.
Qed.

Lemma listen_targets_listen_as (addrs : list string) :
  Forall2 listens_as addrs (map listen_target addrs).
Proof.
  induction addrs as [|addr rest IH]; simpl; constructor.
  - apply listen_target_listens_as.
  - exact IH.
Qed.

(** ** Projections of the trace of a run *)

Lemma listen_events_no_server (t : list Event) :
  Forall listen_event t -> servers_created t = [].
Proof.
  intros H. apply flat_map_none. intros e He.
  rewrite Forall_forall in H. destruct (H e He); reflexivity.
Qed.

Lemma listen_events_no_passwords (t : list Event) :
  Forall listen_event t -> passwords_reads t = [].
Proof.
  intros H. apply flat_map_none. intros e He.
  rewrite Forall_forall in H. destruct (H e He); reflexivity.
Qed.

Lemma servers_created_app (t1 t2 : list Event) :
  servers_created (t1 ++ t2) = servers_created t1 ++ servers_created t2.
Proof. apply flat_map_app. Qed.

Lemma listen_calls_app (t1 t2 : list Event) :
  listen_calls (t1 ++ t2) = listen_calls t1 ++ listen_calls t2.
Proof. apply flat_map_app. Qed.

Lemma passwords_reads_app (t1 t2 : list Event) :
  passwords_reads (t1 ++ t2) = passwords_reads t1 ++ passwords_reads t2.
Proof. apply flat_map_app. Qed.

Lemma waits_app (t1 t2 : list Event) : waits (t1 ++ t2) = waits t1 || waits t2.
Proof. apply existsb_app. Qed.

Lemma listen_events_no_wait (t : list Event) :
  Forall listen_event t -> waits t = false.
Proof.
  induction 1 as [|e t He _ IH]; simpl; [reflexivity|].
  rewrite IH. destruct He; reflexivity.
Qed.

Lemma users_loaded_events (w : World) (cfg : Config) (pepper : list Byte.byte)
    (tu : list Event) (users : gmap string iface) :
  users_loaded w cfg pepper tu users ->
  servers_created tu = [] /\ listen_calls tu = [] /\ waits tu = false.
Proof. destruct 1; simpl; auto. Qed.

Lemma started_listen_events (w : World) (cfg : Config)
    (users : gmap string iface) (tu tl : list Event) (fl : Flow server.Server) :
  started w cfg users tu tl fl -> Forall listen_event tl.
Proof.
  intros [_ _ Hl].
  pose proof (listenLoop_shape w (Server_Listeners cfg)
                (server.New (server_config cfg users))) as [Ht _].
  rewrite Hl in Ht. exact Ht.
Qed.

Lemma started_users_events (w : World) (cfg : Config)
    (users : gmap string iface) (tu tl : list Event) (fl : Flow server.Server) :
  started w cfg users tu tl fl ->
  servers_created tu = [] /\ listen_calls tu = [] /\ waits tu = false.
Proof.
  intros [_ (pepper & _ & Hu) _]. eapply users_loaded_events. exact Hu.
Qed.

Lemma startup_trace_quiet (w : World) (cfg : Config)
    (users : gmap string iface) (tu tl : list Event) (fl : Flow server.Server) :
  started w cfg users tu tl fl ->
  waits (startup_trace cfg users tu tl) = false
  /\ listen_calls (startup_trace cfg users tu tl) = listen_calls tl.
Proof.
  intros Hs. unfold startup_trace.
  pose proof (started_users_events _ _ _ _ _ _ Hs) as (_ & Hlc & Hw).
  pose proof (listen_events_no_wait _ (started_listen_events _ _ _ _ _ _ Hs))
    as Hl.
  split.
  - rewrite !waits_app, Hw, Hl. reflexivity.
  - rewrite !listen_calls_app, Hlc. reflexivity.
Qed.

(** The servers created by a started run, whatever follows the listen
    loop. *)
Lemma servers_created_started (w : World) (cfg : Config)
    (users : gmap string iface) (tu tl : list Event) (fl : Flow server.Server)
    (tail : list Event) :
  started w cfg users tu tl fl ->
  servers_created tail = [] ->
  servers_created
    ([EvReadConfig; EvPepper] ++ tu ++ [EvServerNew (server_config cfg users)]
       ++ tl ++ tail)
  = [server_config cfg users].
Proof.
  intros Hs Htail.
  pose proof (started_users_events _ _ _ _ _ _ Hs) as (Hu & _ & _).
  pose proof (listen_events_no_server _ (started_listen_events _ _ _ _ _ _ Hs))
    as Hl.
  rewrite !servers_created_app, Hu, Hl, Htail. reflexivity.
Qed.

(** The servers a run creates: none when startup fails early, otherwise
    the one built from the configuration and the credential table. *)
Lemma servers_created_run (w : World) (c : server.Config) :
  c ∈ servers_created (fst (runServe w)) ->
  exists cfg users tu tl fl,
    started w cfg users tu tl fl /\ c = server_config cfg users.
Proof.
  pose proof (runServe_shape w) as H.
  destruct (runServe w) as [t o]. simpl in *.
  inversion H as [err Hc|cfg err Hc Hp|cfg pepper err Hc Hp He Hpw
                 |cfg users tu tl e Hs|cfg users tu tl s Hs Hr
                 |cfg users tu tl s sig Hs Hr|cfg users tu tl s sig Hs Hr];
    subst; try (simpl; intros Hin; inversion Hin; fail);
    (rewrite (servers_created_started w cfg users tu tl _ _ Hs) by reflexivity);
    intros Hin; apply list_elem_of_singleton in Hin; subst c;
    exists cfg, users, tu, tl; eexists; (split; [exact Hs|reflexivity]).
Qed.

Lemma workers_built_run (w : World) (wk : worker.Worker) :
  wk ∈ workers_built w ->
  exists cfg users tu tl fl num,
    started w cfg users tu tl fl
    /\ wk = factory cfg (certbotConfig_of cfg) users num.
Proof.
  unfold workers_built. intros H.
  apply list_elem_of_In, in_flat_map in H. destruct H as (c & Hc & Hwk).
  apply list_elem_of_In in Hc.
  apply servers_created_run in Hc.
  destruct Hc as (cfg & users & tu & tl & fl & Hs & ->).
  unfold server_config, pool.workers, pool.NewPreallocatedPool in Hwk.
  cbn [server.Pool] in Hwk.
  rewrite List.map_map in Hwk. apply in_map_iff in Hwk.
  destruct Hwk as (i & <- & _). cbn [pool.slot_worker].
  exists cfg, users, tu, tl, fl, (Z.of_nat i). split; [exact Hs|reflexivity].
Qed.

(** ** The filter chains of the workers *)

Lemma factory_chain (cfg : Config) (cc : filter.CertbotConfig)
    (users : gmap string iface) (num : Z) :
  worker.filters (factory cfg cc users num)
  = optional (Filters_Healthcheck_Enabled cfg)
      (filter.NewHealthCheckFilter (Filters_Healthcheck_Method cfg)
                                   (Filters_Healthcheck_Path cfg))
    ++ [filter.NewParseFilter (nested_chain cfg cc users)].
Proof.
  unfold factory, nested_chain, optional.
  destruct (Filters_Healthcheck_Enabled cfg), (Filters_Forwarded_Enabled cfg),
    (Filters_Certbot_Enabled cfg), (Filters_Auth_Enabled cfg); reflexivity.
Qed.

Lemma nested_chain_kinds (cfg : Config) (cc : filter.CertbotConfig)
    (users : gmap string iface) :
  map http_kind (nested_chain cfg cc users)
  = optional (Filters_Forwarded_Enabled cfg) Forwarded
    ++ optional (Filters_Certbot_Enabled cfg) Certbot
    ++ optional (Filters_Auth_Enabled cfg) Auth
    ++ [Tunnel; Forward].
Proof.
  unfold nested_chain, optional.
  destruct (Filters_Forwarded_Enabled cfg), (Filters_Certbot_Enabled cfg),
    (Filters_Auth_Enabled cfg); reflexivity.
Qed.

Lemma factory_parse_chains (cfg : Config) (cc : filter.CertbotConfig)
    (users : gmap string iface) (num : Z) :
  parse_chains (worker.filters (factory cfg cc users num))
  = [nested_chain cfg cc users].
Proof.
  rewrite factory_chain. unfold optional.
  destruct (Filters_Healthcheck_Enabled cfg); reflexivity.
Qed.

(** A worker built by a run comes from the factory applied to the
    configuration that was read. *)
Lemma workers_built_factory (w : World) (cfg : Config) (wk : worker.Worker) :
  w_ReadConfig w = Ok cfg ->
  wk ∈ workers_built w ->
  exists users tu tl fl num,
    started w cfg users tu tl fl
    /\ wk = factory cfg (certbotConfig_of cfg) users num.
Proof.
  intros Hcfg Hwk.
  destruct (workers_built_run w wk Hwk)
    as (cfg' & users & tu & tl & fl & num & Hs & ->).
  pose proof (st_config _ _ _ _ _ _ Hs) as Hcfg'.
  rewrite Hcfg in Hcfg'. injection Hcfg' as <-.
  exists users, tu, tl, fl, num. split; [exact Hs|reflexivity].
Qed.

(** Membership in an explicit list of kinds. *)
Ltac in_list :=
  repeat first [apply list_elem_of_here | apply list_elem_of_further].

Ltac not_in_list H :=
  repeat (apply elem_of_cons in H; destruct H as [H|H]; [discriminate H|]);
  apply elem_of_nil in H; destruct H.

Ltac present_iff_flag :=
  let H := fresh "H" in
  split; intros H;
  [ first [reflexivity | not_in_list H]
  | first [discriminate H | in_list] ].

(** C1: in every worker that [runServe] builds, the chain handed to the
    Parse filter is Forwarded (exactly when enabled), Certbot (exactly
    when enabled), Auth (exactly when enabled), Tunnel, Forward, in this
    order, each stage at most once; Forward is last and Tunnel is right
    before it. *)
Theorem nested_chain_order (w : World) (cfg : Config) (wk : worker.Worker) :
  w_ReadConfig w = Ok cfg ->
  wk ∈ workers_built w ->
  exists hfs,
    parse_chains (worker.filters wk) = [hfs]
    /\ map http_kind hfs
       = optional (Filters_Forwarded_Enabled cfg) Forwarded
         ++ optional (Filters_Certbot_Enabled cfg) Certbot
         ++ optional (Filters_Auth_Enabled cfg) Auth
         ++ [Tunnel; Forward]
    /\ (Forwarded ∈ map http_kind hfs <-> Filters_Forwarded_Enabled cfg = true)
    /\ (Certbot ∈ map http_kind hfs <-> Filters_Certbot_Enabled cfg = true)
    /\ (Auth ∈ map http_kind hfs <-> Filters_Auth_Enabled cfg = true)
    /\ StronglySorted (fun a b => rank a < rank b) (map http_kind hfs)
    /\ (exists pre, map http_kind hfs = pre ++ [Tunnel; Forward]).
Proof.
  intros Hcfg Hwk.
  destruct (workers_built_factory w cfg wk Hcfg Hwk)
    as (users & tu & tl & fl & num & _ & ->).
  exists (nested_chain cfg (certbotConfig_of cfg) users).
  split; [apply factory_parse_chains|].
  rewrite nested_chain_kinds.
  split; [reflexivity|].
  assert (Hlast : exists pre,
    optional (Filters_Forwarded_Enabled cfg) Forwarded
      ++ optional (Filters_Certbot_Enabled cfg) Certbot
      ++ optional (Filters_Auth_Enabled cfg) Auth
      ++ [Tunnel; Forward] = pre ++ [Tunnel; Forward]).
  { exists (optional (Filters_Forwarded_Enabled cfg) Forwarded
      ++ optional (Filters_Certbot_Enabled cfg) Certbot
      ++ optional (Filters_Auth_Enabled cfg) Auth).
    rewrite <- !app_assoc. reflexivity. }
  unfold optional in *.
  destruct (Filters_Forwarded_Enabled cfg), (Filters_Certbot_Enabled cfg),
    (Filters_Auth_Enabled cfg); simpl in *;
    (split; [present_iff_flag|]);
    (split; [present_iff_flag|]);
    (split; [present_iff_flag|]);
    (split; [repeat constructor; simpl; lia|exact Hlast]).
Qed.

Lemma nested_chain_order_witness :
  w_ReadConfig sample_world = Ok sample_config
  /\ sample_worker ∈ workers_built sample_world
  /\ exists hfs,
       parse_chains (worker.filters sample_worker) = [hfs]
       /\ map http_kind hfs
          = optional (Filters_Forwarded_Enabled sample_config) Forwarded
            ++ optional (Filters_Certbot_Enabled sample_config) Certbot
            ++ optional (Filters_Auth_Enabled sample_config) Auth
            ++ [Tunnel; Forward]
       /\ (Forwarded ∈ map http_kind hfs
           <-> Filters_Forwarded_Enabled sample_config = true)
       /\ (Certbot ∈ map http_kind hfs
           <-> Filters_Certbot_Enabled sample_config = true)
       /\ (Auth ∈ map http_kind hfs
           <-> Filters_Auth_Enabled sample_config = true)
       /\ StronglySorted (fun a b => rank a < rank b) (map http_kind hfs)
       /\ (exists pre, map http_kind hfs = pre ++ [Tunnel; Forward]).
Proof.
  split; [reflexivity|].
  split; [apply (list_elem_of_lookup_2 _ 0%nat); vm_compute; reflexivity|].
  apply (nested_chain_order sample_world sample_config sample_worker).
  - reflexivity.
  - apply (list_elem_of_lookup_2 _ 0%nat). vm_compute. reflexivity.
Defined.

(** C4: the top-level chain of every worker that [runServe] builds is
    HealthCheck followed by Parse when the health check is enabled, and
    Parse alone when it is disabled; a HealthCheck stage, when there is
    one, comes before the Parse stage. *)
Theorem top_level_chain (w : World) (cfg : Config) (wk : worker.Worker) :
  w_ReadConfig w = Ok cfg ->
  wk ∈ workers_built w ->
  exists hfs,
    (Filters_Healthcheck_Enabled cfg = true ->
       worker.filters wk
       = [filter.NewHealthCheckFilter (Filters_Healthcheck_Method cfg)
                                      (Filters_Healthcheck_Path cfg);
          filter.NewParseFilter hfs]
       /\ chain_kinds wk = [HealthCheck; Parse (map http_kind hfs)])
    /\ (Filters_Healthcheck_Enabled cfg = false ->
          worker.filters wk = [filter.NewParseFilter hfs]
          /\ chain_kinds wk = [Parse (map http_kind hfs)])
    /\ (forall i j ks,
          chain_kinds wk !! i = Some HealthCheck ->
          chain_kinds wk !! j = Some (Parse ks) ->
          i < j).
Proof.
  intros Hcfg Hwk.
  destruct (workers_built_factory w cfg wk Hcfg Hwk)
    as (users & tu & tl & fl & num & _ & ->).
  exists (nested_chain cfg (certbotConfig_of cfg) users).
  unfold chain_kinds. rewrite factory_chain. unfold optional.
  destruct (Filters_Healthcheck_Enabled cfg); simpl;
    (split; [intros H; first [discriminate H | split; reflexivity]|]);
    (split; [intros H; first [discriminate H | split; reflexivity]|]);
    intros i j ks Hi Hj.
  - destruct i as [|[|i]]; simpl in Hi; try discriminate Hi.
    destruct j as [|j]; simpl in Hj; [discriminate Hj|lia].
  - destruct i as [|i]; simpl in Hi; discriminate Hi.
Qed.

Lemma top_level_chain_witness :
  w_ReadConfig sample_world = Ok sample_config
  /\ sample_worker ∈ workers_built sample_world
  /\ exists hfs,
       (Filters_Healthcheck_Enabled sample_config = true ->
          worker.filters sample_worker
          = [filter.NewHealthCheckFilter
               (Filters_Healthcheck_Method sample_config)
               (Filters_Healthcheck_Path sample_config);
             filter.NewParseFilter hfs]
          /\ chain_kinds sample_worker = [HealthCheck; Parse (map http_kind hfs)])
       /\ (Filters_Healthcheck_Enabled sample_config = false ->
             worker.filters sample_worker = [filter.NewParseFilter hfs]
             /\ chain_kinds sample_worker = [Parse (map http_kind hfs)])
       /\ (forall i j ks,
             chain_kinds sample_worker !! i = Some HealthCheck ->
             chain_kinds sample_worker !! j = Some (Parse ks) ->
             i < j).
Proof.
  split; [reflexivity|].
  split; [apply (list_elem_of_lookup_2 _ 0%nat); vm_compute; reflexivity|].
  apply (top_level_chain sample_world sample_config sample_worker).
  - reflexivity.
  - apply (list_elem_of_lookup_2 _ 0%nat). vm_compute. reflexivity.
Defined.

(** ** The credential comparison *)

(** C2: [authCompare p v] is true exactly when [v] is the plaintext
    string [p], or [v] is a digest whose [Compare p] returns 0; for a
    stored secret of any other variant it is false. *)
Theorem authCompare_spec (password : string) (v : iface) :
  (authCompare password v = true
   <-> v = IString password
       \/ exists d, v = IArgon2Digest d /\ hasher.Compare d password = 0%Z)
  /\ authCompare password INil = false
  /\ (forall t, authCompare password (IOther t) = false).
Proof.
  split; [|split; reflexivity].
  destruct v as [|s|d|t]; simpl; split.
  - discriminate.
  - intros [H|(d & H & _)]; discriminate H.
  - intros H. left. apply String.eqb_eq in H. subst s. reflexivity.
  - intros [H|(d & H & _)]; [|discriminate H].
    injection H as ->. apply String.eqb_refl.
  - intros H. right. exists d. split; [reflexivity|]. apply Z.eqb_eq. exact H.
  - intros [H|(d' & H & H0)]; [discriminate H|].
    injection H as <-. apply Z.eqb_eq. exact H0.
  - discriminate.
  - intros [H|(d & H & _)]; discriminate H.
Qed.

Example authCompare_plaintext : authCompare "hunter2" (IString "hunter2") = true.
Proof. reflexivity. Qed.

Example authCompare_digest :
  authCompare "hunter2" (IArgon2Digest sample_digest) = true
  /\ authCompare "letmein" (IArgon2Digest sample_digest) = false.
Proof. split; reflexivity. Qed.

(** ** The capacity of the worker pool *)

Lemma NewPreallocatedPool_capacity (factory : Z -> worker.Worker) (size : Z) :
  pool.capacity (pool.NewPreallocatedPool factory size) = Z.to_nat size.
Proof.
  unfold pool.capacity, pool.NewPreallocatedPool.
  rewrite length_map, length_seq. reflexivity.
Qed.

Lemma acquire_capacity (p p' : pool.PreallocatedPool) (wk : worker.Worker) :
  pool.acquire p = Some (wk, p') -> pool.capacity p' = pool.capacity p.
Proof.
  revert p' wk. induction p as [|s rest IH]; intros p' wk H; simpl in H.
  - discriminate H.
  - destruct (pool.slot_bound s).
    + destruct (pool.acquire rest) as [[wk' rest']|] eqn:Ha; [|discriminate H].
      injection H as _ <-. unfold pool.capacity in *. simpl.
      f_equal. apply (IH rest' wk'). reflexivity.
    + injection H as _ <-. reflexivity.
Qed.

Lemma release_capacity (n : Z) (p : pool.PreallocatedPool) :
  pool.capacity (pool.release n p) = pool.capacity p.
Proof. unfold pool.capacity, pool.release. apply length_map. Qed.

Lemma step_capacity (p : pool.PreallocatedPool) (o : pool.Op) :
  pool.capacity (pool.step p o) = pool.capacity p.
Proof.
  destruct o as [|n]; simpl.
  - destruct (pool.acquire p) as [[wk p']|] eqn:Ha; [|reflexivity].
    apply (acquire_capacity p p' wk Ha).
  - apply release_capacity.
Qed.

Lemma steps_capacity (ops : list pool.Op) :
  forall p, pool.capacity (pool.steps p ops) = pool.capacity p.
Proof.
  unfold pool.steps.
  induction ops as [|o ops IH]; intros p; simpl; [reflexivity|].
  rewrite IH. apply step_capacity.
Qed.

(** The sample configuration asks for two workers; the pool has 1024. *)
Lemma pool_not_sized_by_config :
  Worker_PoolSize sample_config = 2%Z
  /\ map (fun c => pool.capacity (server.Pool c))
         (servers_created (fst (runServe sample_world)))
     = [1024%nat]
  /\ ~ pool_sized_by_config sample_world.
Proof.
  split; [reflexivity|]. split; [vm_compute; reflexivity|].
  intros H.
  specialize (H sample_config (server_config sample_config sample_users) eq_refl).
  assert (Hin : server_config sample_config sample_users
                ∈ servers_created (fst (runServe sample_world))).
  { apply (list_elem_of_lookup_2 _ 0%nat). reflexivity. }
  specialize (H Hin). clear Hin. unfold server_config in H. simpl server.Pool in H.
  rewrite NewPreallocatedPool_capacity in H. discriminate H.
Qed.

(** C3, as the code has it: the pool of every server a run creates has
    1024 workers, whatever the configuration says, and no sequence of
    acquire and release operations changes that number. *)
Theorem pool_capacity_fixed (w : World) (c : server.Config) :
  c ∈ servers_created (fst (runServe w)) ->
  pool.capacity (server.Pool c) = 1024%nat
  /\ forall ops, pool.capacity (pool.steps (server.Pool c) ops) = 1024%nat.
Proof.
  intros Hc.
  destruct (servers_created_run w c Hc) as (cfg & users & tu & tl & fl & _ & ->).
  assert (H : pool.capacity (server.Pool (server_config cfg users)) = 1024%nat).
  { unfold server_config. simpl server.Pool.
    rewrite NewPreallocatedPool_capacity. reflexivity. }
  split; [exact H|]. intros ops. rewrite steps_capacity. exact H.
Qed.

Lemma pool_capacity_fixed_witness :
  server_config sample_config sample_users
    ∈ servers_created (fst (runServe sample_world))
  /\ pool.capacity (server.Pool (server_config sample_config sample_users))
     = 1024%nat
  /\ forall ops,
       pool.capacity
         (pool.steps (server.Pool (server_config sample_config sample_users)) ops)
       = 1024%nat.
Proof.
  split; [apply (list_elem_of_lookup_2 _ 0%nat); reflexivity|].
  apply (pool_capacity_fixed sample_world).
  apply (list_elem_of_lookup_2 _ 0%nat). reflexivity.
Defined.

(** ** The two revisions *)

Lemma v1_factory_kinds (cfg : Config) (users : gmap string iface) (num : Z) :
  v1_chain_kinds (v1.factory cfg users num)
  = [Parse (optional (Filters_Certbot_Enabled cfg) Certbot
            ++ optional (Filters_Auth_Enabled cfg) Auth
            ++ [Tunnel; Forward])].
Proof.
  unfold v1_chain_kinds, v1.factory, optional.
  destruct (Filters_Certbot_Enabled cfg), (Filters_Auth_Enabled cfg); reflexivity.
Qed.

Lemma factory_kinds (cfg : Config) (cc : filter.CertbotConfig)
    (users : gmap string iface) (num : Z) :
  chain_kinds (factory cfg cc users num)
  = optional (Filters_Healthcheck_Enabled cfg) HealthCheck
    ++ [Parse (optional (Filters_Forwarded_Enabled cfg) Forwarded
               ++ optional (Filters_Certbot_Enabled cfg) Certbot
               ++ optional (Filters_Auth_Enabled cfg) Auth
               ++ [Tunnel; Forward])].
Proof.
  unfold chain_kinds. rewrite factory_chain, map_app. simpl.
  rewrite nested_chain_kinds. unfold optional.
  destruct (Filters_Healthcheck_Enabled cfg); reflexivity.
Qed.

(** With the Forwarded and HealthCheck filters enabled the two revisions
    build different chains. *)
Lemma revisions_differ :
  v1_chain_kinds (v1.factory sample_config sample_users 0)
  = [Parse [Certbot; Auth; Tunnel; Forward]]
  /\ chain_kinds
       (factory sample_config (certbotConfig_of sample_config) sample_users 0)
     = [HealthCheck; Parse [Forwarded; Certbot; Auth; Tunnel; Forward]]
  /\ v1_chain_kinds (v1.factory sample_config sample_users 0)
     <> chain_kinds
          (factory sample_config (certbotConfig_of sample_config) sample_users 0).
Proof.
  rewrite v1_factory_kinds, factory_kinds. simpl.
  split; [reflexivity|]. split; [reflexivity|]. discriminate.
Qed.

(** C8, as the code has it: for a configuration with the Forwarded and
    HealthCheck filters both disabled, the worker factories of the two
    revisions build chains with the same sequence of filter kinds. *)
Theorem revisions_agree (cfg : Config) (users : gmap string iface) (num : Z) :
  Filters_Forwarded_Enabled cfg = false ->
  Filters_Healthcheck_Enabled cfg = false ->
  v1_chain_kinds (v1.factory cfg users num)
  = chain_kinds (factory cfg (certbotConfig_of cfg) users num).
Proof.
  intros Hf Hh. rewrite v1_factory_kinds, factory_kinds, Hf, Hh. reflexivity.
Qed.

Lemma revisions_agree_witness :
  Filters_Forwarded_Enabled legacy_config = false
  /\ Filters_Healthcheck_Enabled legacy_config = false
  /\ v1_chain_kinds (v1.factory legacy_config sample_users 7)
     = chain_kinds
         (factory legacy_config (certbotConfig_of legacy_config) sample_users 7).
Proof.
  split; [reflexivity|]. split; [reflexivity|].
  apply (revisions_agree legacy_config sample_users 7); reflexivity.
Defined.

(** In general the earlier chain is the current one without its
    HealthCheck and Forwarded stages. *)
Lemma revisions_related (cfg : Config) (users : gmap string iface) (num : Z) :
  chain_kinds (factory cfg (certbotConfig_of cfg) users num)
  = optional (Filters_Healthcheck_Enabled cfg) HealthCheck
    ++ match v1_chain_kinds (v1.factory cfg users num) with
       | [Parse ks] =>
           [Parse (optional (Filters_Forwarded_Enabled cfg) Forwarded ++ ks)]
       | other => other
       end.
Proof. rewrite v1_factory_kinds, factory_kinds. reflexivity. Qed.

(** ** Runs and the world *)

Lemma startup_trace_app (cfg : Config) (users : gmap string iface)
    (tu tl tail : list Event) :
  [EvReadConfig; EvPepper] ++ tu ++ [EvServerNew (server_config cfg users)]
    ++ tl ++ tail
  = startup_trace cfg users tu tl ++ tail.
Proof. unfold startup_trace. rewrite <- !app_assoc. reflexivity. Qed.

(** What the listen loop of a started run does, read off the world. *)
Lemma started_flow (w : World) (cfg : Config) (users : gmap string iface)
    (tu tl : list Event) (fl : Flow server.Server) :
  started w cfg users tu tl fl ->
  match bind_errors w [] (map listen_target (Server_Listeners cfg)) with
  | None =>
      fl = Next {| server.config := server_config cfg users;
                   server.listeners := map listen_target (Server_Listeners cfg) |}
      /\ listen_calls tl = map listen_target (Server_Listeners cfg)
  | Some e =>
      fl = Return (Some e)
      /\ exists k, listen_calls tl
                   = map listen_target (take k (Server_Listeners cfg))
  end.
Proof.
  intros [_ _ Hl].
  pose proof (listenLoop_calls w (Server_Listeners cfg)
                (server.New (server_config cfg users))) as H.
  rewrite Hl in H. simpl in H. exact H.
Qed.

(** The same configuration, whichever way it is named. *)
Lemma started_config (w : World) (cfg cfg' : Config)
    (users : gmap string iface) (tu tl : list Event) (fl : Flow server.Server) :
  w_ReadConfig w = Ok cfg -> started w cfg' users tu tl fl -> cfg' = cfg.
Proof.
  intros Hcfg [Hcfg' _ _]. rewrite Hcfg in Hcfg'. injection Hcfg' as ->.
  reflexivity.
Qed.

(** ** Startup failures *)

(** C5: [runServe] returns an error, without subscribing to signals,
    receiving one or calling [Close], when the configuration cannot be
    read, when Auth is enabled and the passwords file cannot be read, and
    when a listener cannot be bound.  In the first two cases it does not
    call [Listen] either. *)
Theorem startup_failures_abort (w : World) :
  (forall err,
     w_ReadConfig w = Err err ->
     runServe w
     = ([EvReadConfig], Returned (Errorf "error while reading config: " err)))
  /\ (forall cfg pepper err,
        w_ReadConfig w = Ok cfg ->
        w_Pepper w cfg = Ok pepper ->
        Filters_Auth_Enabled cfg = true ->
        w_ReadPasswordsFile w (argon2_auth pepper)
          (Filters_Auth_PasswordsFile cfg) = Err err ->
        runServe w
        = ([EvReadConfig; EvPepper;
            EvReadPasswordsFile (argon2_auth pepper)
              (Filters_Auth_PasswordsFile cfg);
            EvSync],
           Returned (Errorf "error while reading passwords file: " err)))
  /\ (forall cfg e,
        w_ReadConfig w = Ok cfg ->
        bind_errors w [] (map listen_target (Server_Listeners cfg)) = Some e ->
        exists e',
          snd (runServe w) = Returned (Some e')
          /\ waits (fst (runServe w)) = false).
Proof.
  split; [|split].
  - intros err Hcfg. unfold runServe, runServe_body. rewrite Hcfg. reflexivity.
  - intros cfg pepper err Hcfg Hpep Hen Hpw.
    unfold runServe, runServe_body. rewrite Hcfg. simpl.
    rewrite Hpep. simpl. rewrite Hen. simpl.
    unfold argon2_auth in Hpw. rewrite Hpw. reflexivity.
  - intros cfg e Hcfg Hbind.
    pose proof (runServe_shape w) as H.
    destruct (runServe w) as [t o]. simpl in *.
    inversion H as [err Hc|cfg' err Hc Hp|cfg' pepper err Hc Hp He Hpw
                   |cfg' users tu tl e' Hs|cfg' users tu tl s Hs Hr
                   |cfg' users tu tl s sig Hs Hr|cfg' users tu tl s sig Hs Hr];
      subst t o.
    + rewrite Hcfg in Hc. discriminate Hc.
    + eexists. split; reflexivity.
    + eexists. split; reflexivity.
    + exists e'. split; [reflexivity|].
      rewrite startup_trace_app, waits_app.
      destruct (startup_trace_quiet _ _ _ _ _ _ Hs) as [-> _]. reflexivity.
    + pose proof (started_config _ _ _ _ _ _ _ Hcfg Hs) as ->.
      pose proof (started_flow _ _ _ _ _ _ Hs) as Hfl.
      rewrite Hbind in Hfl. destruct Hfl as [Hfl _]. discriminate Hfl.
    + pose proof (started_config _ _ _ _ _ _ _ Hcfg Hs) as ->.
      pose proof (started_flow _ _ _ _ _ _ Hs) as Hfl.
      rewrite Hbind in Hfl. destruct Hfl as [Hfl _]. discriminate Hfl.
    + pose proof (started_config _ _ _ _ _ _ _ Hcfg Hs) as ->.
      pose proof (started_flow _ _ _ _ _ _ Hs) as Hfl.
      rewrite Hbind in Hfl. destruct Hfl as [Hfl _]. discriminate Hfl.
Qed.

Lemma startup_failures_abort_witness :
  (w_ReadConfig world_without_config
     = Err "open higuchi.yaml: no such file or directory"
   /\ runServe world_without_config
      = ([EvReadConfig],
         Returned (Errorf "error while reading config: "
                     "open higuchi.yaml: no such file or directory")))
  /\ (Filters_Auth_Enabled sample_config = true
      /\ runServe world_without_passwords
         = ([EvReadConfig; EvPepper;
             EvReadPasswordsFile (argon2_auth [])
               (Filters_Auth_PasswordsFile sample_config);
             EvSync],
            Returned (Errorf "error while reading passwords file: "
                        "permission denied")))
  /\ (bind_errors world_with_socket_taken []
        (map listen_target (Server_Listeners sample_config))
      = Some "address already in use"
      /\ exists e',
           snd (runServe world_with_socket_taken) = Returned (Some e')
           /\ waits (fst (runServe world_with_socket_taken)) = false).
Proof.
  split; [|split].
  - split; [reflexivity|].
    apply (proj1 (startup_failures_abort world_without_config)).
    reflexivity.
  - split; [reflexivity|].
    apply (proj1 (proj2 (startup_failures_abort world_without_passwords))
             sample_config [] "permission denied"); reflexivity.
  - split; [reflexivity|].
    apply (proj2 (proj2 (startup_failures_abort world_with_socket_taken))
             sample_config "address already in use"); reflexivity.
Defined.

(** C9: when the pepper cannot be decoded, [runServe] returns an error
    right after the decoding attempt, whether the Auth filter is enabled
    or not: the passwords file is not read, no server is created and no
    listener is opened. *)
Theorem pepper_failure_aborts (w : World) (cfg : Config) (err : string) :
  w_ReadConfig w = Ok cfg ->
  w_Pepper w cfg = Err err ->
  runServe w
  = ([EvReadConfig; EvPepper; EvSync],
     Returned (Errorf "error while decoding pepper: " err)).
Proof.
  intros Hcfg Hpep. unfold runServe, runServe_body.
  rewrite Hcfg. simpl. rewrite Hpep. reflexivity.
Qed.

Lemma pepper_failure_aborts_witness :
  Filters_Auth_Enabled open_config = false
  /\ w_ReadConfig world_with_bad_pepper = Ok open_config
  /\ w_Pepper world_with_bad_pepper open_config
     = Err "illegal base64 data at input byte 3"
  /\ runServe world_with_bad_pepper
     = ([EvReadConfig; EvPepper; EvSync],
        Returned (Errorf "error while decoding pepper: "
                    "illegal base64 data at input byte 3")).
Proof.
  split; [reflexivity|]. split; [reflexivity|]. split; [reflexivity|].
  apply (pepper_failure_aborts world_with_bad_pepper open_config); reflexivity.
Defined.

(** ** The listeners *)

(** C6: the calls of [Listen] follow the configured listener addresses in
    order; an address that starts with "unix:" is listened on with
    network "unix" and the rest of the address, any other address with
    network "tcp" and the address as it is.  A run that reaches the wait
    phase has listened on every configured address. *)
Theorem listeners_network_and_address (w : World) (cfg : Config) :
  w_ReadConfig w = Ok cfg ->
  exists k,
    Forall2 listens_as (take k (Server_Listeners cfg))
      (listen_calls (fst (runServe w)))
    /\ (waits (fst (runServe w)) = true ->
        take k (Server_Listeners cfg) = Server_Listeners cfg).
Proof.
  intros Hcfg.
  pose proof (runServe_shape w) as H.
  destruct (runServe w) as [t o]. simpl in *.
  inversion H as [err Hc|cfg' err Hc Hp|cfg' pepper err Hc Hp He Hpw
                 |cfg' users tu tl e' Hs|cfg' users tu tl s Hs Hr
                 |cfg' users tu tl s sig Hs Hr|cfg' users tu tl s sig Hs Hr];
    subst t o;
    try (exists 0%nat; rewrite take_0; simpl;
         split; [constructor|discriminate]; fail);
    pose proof (started_config _ _ _ _ _ _ _ Hcfg Hs) as ->;
    pose proof (started_flow _ _ _ _ _ _ Hs) as Hfl;
    destruct (startup_trace_quiet _ _ _ _ _ _ Hs) as [Hq Hlc];
    rewrite startup_trace_app, listen_calls_app, waits_app, Hq, Hlc;
    simpl; rewrite app_nil_r;
    destruct (bind_errors w [] (map listen_target (Server_Listeners cfg)))
      as [e|];
    destruct Hfl as [Hfl Hcalls]; try discriminate Hfl.
  - destruct Hcalls as [k ->]. exists k.
    split; [apply listen_targets_listen_as|discriminate].
  - exists (length (Server_Listeners cfg)). rewrite firstn_all, Hcalls.
    split; [apply listen_targets_listen_as|reflexivity].
  - exists (length (Server_Listeners cfg)). rewrite firstn_all, Hcalls.
    split; [apply listen_targets_listen_as|reflexivity].
  - exists (length (Server_Listeners cfg)). rewrite firstn_all, Hcalls.
    split; [apply listen_targets_listen_as|reflexivity].
Qed.

Lemma listeners_network_and_address_witness :
  w_ReadConfig sample_world = Ok sample_config
  /\ listen_calls (fst (runServe sample_world))
     = [("tcp", "0.0.0.0:8080"); ("unix", "/run/higuchi.sock")]
  /\ exists k,
       Forall2 listens_as (take k (Server_Listeners sample_config))
         (listen_calls (fst (runServe sample_world)))
       /\ (waits (fst (runServe sample_world)) = true ->
           take k (Server_Listeners sample_config)
           = Server_Listeners sample_config).
Proof.
  split; [reflexivity|]. split; [reflexivity|].
  apply (listeners_network_and_address sample_world sample_config).
  reflexivity.
Defined.

(** ** Waiting for the stop signal *)

(** C7: after a successful startup [runServe] subscribes to SIGINT and
    SIGTERM and then waits.  If neither ever arrives it does not return
    and [Close] is not called (the run blocks, or another signal ends the
    process).  If one arrives, [runServe] receives it, logs it, calls
    [Close] on the server with all its listeners and returns what [Close]
    returns.  Nothing of this, in particular no [Close], happens during
    startup. *)
Theorem returns_only_after_stop_signal (w : World) (cfg : Config) :
  startup_ok w cfg ->
  exists t0,
    waits t0 = false
    /\ listen_calls t0 = map listen_target (Server_Listeners cfg)
    /\ ((Forall (dropped stop_signals) (w_signals w)
         /\ runServe w = (t0 ++ [EvNotify stop_signals], Blocked))
        \/ (exists pre sig post,
              w_signals w = pre ++ sig :: post
              /\ Forall (dropped stop_signals) pre
              /\ sig <> SIGINT /\ sig <> SIGTERM
              /\ runServe w = (t0 ++ [EvNotify stop_signals], Exited sig))
        \/ (exists pre sig post,
              w_signals w = pre ++ sig :: post
              /\ Forall (dropped stop_signals) pre
              /\ (sig = SIGINT \/ sig = SIGTERM)
              /\ runServe w
                 = (t0 ++ stop_trace sig,
                    Returned
                      (w_Close w (map listen_target (Server_Listeners cfg)))))).
Proof.
  intros (Hcfg & (pepper & Hpep & Hpw) & Hbind).
  pose proof (runServe_shape w) as H.
  destruct (runServe w) as [t o]. simpl in *.
  inversion H as [err Hc|cfg' err Hc Hp|cfg' pepper' err Hc Hp He Hpw'
                 |cfg' users tu tl e' Hs|cfg' users tu tl s Hs Hr
                 |cfg' users tu tl s sig Hs Hr|cfg' users tu tl s sig Hs Hr];
    subst t o.
  - rewrite Hcfg in Hc. discriminate Hc.
  - rewrite Hcfg in Hc. injection Hc as <-. rewrite Hpep in Hp. discriminate Hp.
  - rewrite Hcfg in Hc. injection Hc as <-.
    rewrite Hpep in Hp. injection Hp as <-.
    destruct (Hpw He) as [au Hau]. rewrite Hau in Hpw'. discriminate Hpw'.
  - pose proof (started_config _ _ _ _ _ _ _ Hcfg Hs) as ->.
    pose proof (started_flow _ _ _ _ _ _ Hs) as Hfl.
    rewrite Hbind in Hfl. destruct Hfl as [Hfl _]. discriminate Hfl.
  - pose proof (started_config _ _ _ _ _ _ _ Hcfg Hs) as ->.
    pose proof (started_flow _ _ _ _ _ _ Hs) as Hfl.
    rewrite Hbind in Hfl. destruct Hfl as [Hfl Hcalls].
    destruct (startup_trace_quiet _ _ _ _ _ _ Hs) as [Hq Hlc].
    exists (startup_trace cfg users tu tl).
    split; [exact Hq|]. split; [rewrite Hlc; exact Hcalls|].
    left. rewrite startup_trace_app.
    inversion Hr as [Hall| |]. split; [exact Hall|reflexivity].
  - pose proof (started_config _ _ _ _ _ _ _ Hcfg Hs) as ->.
    pose proof (started_flow _ _ _ _ _ _ Hs) as Hfl.
    rewrite Hbind in Hfl. destruct Hfl as [Hfl Hcalls].
    destruct (startup_trace_quiet _ _ _ _ _ _ Hs) as [Hq Hlc].
    exists (startup_trace cfg users tu tl).
    split; [exact Hq|]. split; [rewrite Hlc; exact Hcalls|].
    right. left. rewrite startup_trace_app.
    inversion Hr as [|pre sg post Heq Hpre Hnin Hex|]. subst sg.
    exists pre, sig, post.
    split; [exact Heq|]. split; [exact Hpre|].
    split; [|split; [|reflexivity]]; intros ->; apply Hnin;
      unfold stop_signals, os_Interrupt; in_list.
  - pose proof (started_config _ _ _ _ _ _ _ Hcfg Hs) as ->.
    pose proof (started_flow _ _ _ _ _ _ Hs) as Hfl.
    rewrite Hbind in Hfl. destruct Hfl as [Hfl Hcalls].
    destruct (startup_trace_quiet _ _ _ _ _ _ Hs) as [Hq Hlc].
    exists (startup_trace cfg users tu tl).
    split; [exact Hq|]. split; [rewrite Hlc; exact Hcalls|].
    right. right. rewrite startup_trace_app.
    inversion Hr as [| |pre sg post Heq Hpre Hin]. subst sg.
    exists pre, sig, post.
    split; [exact Heq|]. split; [exact Hpre|].
    injection Hfl as ->. split; [|reflexivity].
    unfold stop_signals, os_Interrupt in Hin.
    apply elem_of_cons in Hin. destruct Hin as [->|Hin]; [left; reflexivity|].
    apply elem_of_cons in Hin. destruct Hin as [->|Hin]; [right; reflexivity|].
    apply elem_of_nil in Hin. destruct Hin.
Qed.

Lemma returns_only_after_stop_signal_witness :
  startup_ok sample_world sample_config
  /\ runServe sample_world
     = ([EvReadConfig; EvPepper;
         EvReadPasswordsFile (argon2_auth [])
           (Filters_Auth_PasswordsFile sample_config);
         EvServerNew (server_config sample_config sample_users);
         EvListen "tcp" "0.0.0.0:8080";
         EvInfo "Higuchi listening at 0.0.0.0:8080" [];
         EvListen "unix" "/run/higuchi.sock";
         EvInfo "Higuchi listening at /run/higuchi.sock" []]
          ++ stop_trace SIGTERM,
        Returned nil_error)
  /\ exists t0,
       waits t0 = false
       /\ listen_calls t0 = map listen_target (Server_Listeners sample_config)
       /\ ((Forall (dropped stop_signals) (w_signals sample_world)
            /\ runServe sample_world = (t0 ++ [EvNotify stop_signals], Blocked))
           \/ (exists pre sig post,
                 w_signals sample_world = pre ++ sig :: post
                 /\ Forall (dropped stop_signals) pre
                 /\ sig <> SIGINT /\ sig <> SIGTERM
                 /\ runServe sample_world
                    = (t0 ++ [EvNotify stop_signals], Exited sig))
           \/ (exists pre sig post,
                 w_signals sample_world = pre ++ sig :: post
                 /\ Forall (dropped stop_signals) pre
                 /\ (sig = SIGINT \/ sig = SIGTERM)
                 /\ runServe sample_world
                    = (t0 ++ stop_trace sig,
                       Returned
                         (w_Close sample_world
                            (map listen_target
                               (Server_Listeners sample_config)))))).
Proof.
  assert (Hok : startup_ok sample_world sample_config).
  { split; [reflexivity|]. split; [|reflexivity].
    exists []. split; [reflexivity|]. intros _. eexists. reflexivity. }
  split; [exact Hok|]. split; [reflexivity|].
  apply (returns_only_after_stop_signal sample_world sample_config Hok).
Defined.

(** ** Auth disabled *)

Lemma listenLoop_ext (w w' : World) (addrs : list string) :
  (forall bound network a,
     w_Listen w' bound network a = w_Listen w bound network a) ->
  forall s, listenLoop w' s addrs = listenLoop w s addrs.
Proof.
  intros Hl. induction addrs as [|addr rest IH]; intros s; simpl.
  - reflexivity.
  - destruct (listen_target addr) as [network a].
    unfold Listen. rewrite !bind_call. simpl. rewrite Hl.
    destruct (w_Listen w (server.listeners s) network a) as [e|]; simpl.
    + reflexivity.
    + rewrite IH. reflexivity.
Qed.

Lemma started_auth_disabled (w : World) (cfg : Config)
    (users : gmap string iface) (tu tl : list Event) (fl : Flow server.Server) :
  started w cfg users tu tl fl ->
  Filters_Auth_Enabled cfg = false ->
  tu = [] /\ users = ∅.
Proof.
  intros [_ (pepper & _ & Hu) _] Hen.
  destruct Hu as [_|au He _]; [split; reflexivity|].
  rewrite Hen in He. discriminate He.
Qed.

(** C10: with the Auth filter disabled, [runServe] never reads the
    passwords file, the credential table its workers are built with is
    empty, no worker has an Auth stage, and the run is the same whatever
    reading the passwords file would have answered. *)
Theorem auth_disabled_skips_passwords (w : World) (cfg : Config) :
  w_ReadConfig w = Ok cfg ->
  Filters_Auth_Enabled cfg = false ->
  passwords_reads (fst (runServe w)) = []
  /\ (forall c, c ∈ servers_created (fst (runServe w)) ->
                c = server_config cfg ∅)
  /\ (forall wk hfs,
        wk ∈ workers_built w ->
        hfs ∈ parse_chains (worker.filters wk) ->
        Auth ∉ map http_kind hfs)
  /\ (forall rp, runServe (with_ReadPasswordsFile w rp) = runServe w).
Proof.
  intros Hcfg Hen. split; [|split; [|split]].
  - pose proof (runServe_shape w) as H.
    destruct (runServe w) as [t o]. simpl in *.
    inversion H as [err Hc|cfg' err Hc Hp|cfg' pepper err Hc Hp He Hpw
                   |cfg' users tu tl e' Hs|cfg' users tu tl s Hs Hr
                   |cfg' users tu tl s sig Hs Hr|cfg' users tu tl s sig Hs Hr];
      subst t o; try reflexivity;
      try (rewrite Hcfg in Hc; injection Hc as <-;
           rewrite Hen in He; discriminate He);
      pose proof (started_config _ _ _ _ _ _ _ Hcfg Hs) as ->;
      destruct (started_auth_disabled _ _ _ _ _ _ Hs Hen) as [-> ->];
      rewrite !passwords_reads_app,
        (listen_events_no_passwords _ (started_listen_events _ _ _ _ _ _ Hs));
      reflexivity.
  - intros c Hc.
    destruct (servers_created_run w c Hc)
      as (cfg' & users & tu & tl & fl & Hs & ->).
    pose proof (started_config _ _ _ _ _ _ _ Hcfg Hs) as ->.
    destruct (started_auth_disabled _ _ _ _ _ _ Hs Hen) as [_ ->].
    reflexivity.
  - intros wk hfs Hwk Hhfs.
    destruct (workers_built_factory w cfg wk Hcfg Hwk)
      as (users & tu & tl & fl & num & _ & ->).
    rewrite factory_parse_chains in Hhfs.
    apply list_elem_of_singleton in Hhfs. subst hfs.
    rewrite nested_chain_kinds, Hen. unfold optional.
    intros Hin.
    destruct (Filters_Forwarded_Enabled cfg), (Filters_Certbot_Enabled cfg);
      simpl in Hin; not_in_list Hin.
  - intros rp. unfold runServe, runServe_body. simpl.
    rewrite Hcfg. simpl.
    destruct (w_Pepper w cfg) as [pepper|err]; simpl; [|reflexivity].
    rewrite Hen. simpl.
    rewrite (listenLoop_ext w (with_ReadPasswordsFile w rp));
      [reflexivity|intros; reflexivity].
Qed.

Example open_world_runs :
  runServe open_world
  = ([EvReadConfig; EvPepper; EvServerNew (server_config open_config ∅);
      EvListen "unix" "/tmp/proxy.sock";
      EvInfo "Higuchi listening at /tmp/proxy.sock" []]
       ++ stop_trace SIGINT,
     Returned nil_error).
Proof. reflexivity. Qed.

Lemma auth_disabled_skips_passwords_witness :
  w_ReadConfig open_world = Ok open_config
  /\ Filters_Auth_Enabled open_config = false
  /\ passwords_reads (fst (runServe open_world)) = []
  /\ (forall c, c ∈ servers_created (fst (runServe open_world)) ->
                c = server_config open_config ∅)
  /\ (forall wk hfs,
        wk ∈ workers_built open_world ->
        hfs ∈ parse_chains (worker.filters wk) ->
        Auth ∉ map http_kind hfs)
  /\ (forall rp, runServe (with_ReadPasswordsFile open_world rp)
                 = runServe open_world).
Proof.
  split; [reflexivity|]. split; [reflexivity|].
  apply (auth_disabled_skips_passwords open_world open_config); reflexivity.
Defined.

(** * Further properties of the current revision *)

(** ** Listener addresses, continued *)

(** X1: two different configured addresses never stand for the same network
    and address: the "unix:" prefix is the only thing the loop removes,
    and the network records that it was there. *)
Theorem listen_target_injective (a b : string) :
  a <> b -> listen_target a <> listen_target b.
Proof.
  intros Hne H. apply Hne.
  destruct (listen_target_listens_as a) as [(ra & Ha & Hta)|(_ & Hta)];
    destruct (listen_target_listens_as b) as [(rb & Hb & Htb)|(_ & Htb)];
    rewrite Hta, Htb in H.
  - injection H as ->. rewrite Ha, Hb. reflexivity.
  - discriminate H.
  - discriminate H.
  - injection H as ->. reflexivity.
Qed.

Lemma listen_target_injective_witness :
  "unix:/tmp/proxy.sock" <> "/tmp/proxy.sock"
  /\ listen_target "unix:/tmp/proxy.sock" = ("unix", "/tmp/proxy.sock")
  /\ listen_target "/tmp/proxy.sock" = ("tcp", "/tmp/proxy.sock")
  /\ listen_target "unix:/tmp/proxy.sock" <> listen_target "/tmp/proxy.sock".
Proof.
  split; [discriminate|]. split; [reflexivity|]. split; [reflexivity|].
  apply (listen_target_injective "unix:/tmp/proxy.sock" "/tmp/proxy.sock").
  discriminate.
Defined.

(** ** The credential table *)

(** X3: after the copy loop, a user of the passwords file is stored with its
    digest, and any other key keeps what the table held before. *)
Theorem copy_users_lookup (au : gmap string hasher.Argon2Digest)
    (users : gmap string iface) (user : string) :
  copy_users au users !! user
  = match au !! user with
    | Some ad => Some (IArgon2Digest ad)
    | None => users !! user
    end.
Proof.
  unfold copy_users. revert user.
  apply (map_fold_weak_ind
           (fun (r : gmap string iface) (m : gmap string hasher.Argon2Digest) =>
              forall user,
                r !! user = match m !! user with
                            | Some ad => Some (IArgon2Digest ad)
                            | None => users !! user
                            end)).
  - intros user. rewrite lookup_empty. reflexivity.
  - intros i x m r Hi IH user.
    destruct (decide (i = user)) as [->|Hne].
    + rewrite !lookup_insert_eq. reflexivity.
    + rewrite !lookup_insert_ne by exact Hne. apply IH.
Qed.

(** Membership in the nested chain, taken apart. *)
Ltac in_nested_chain H :=
  unfold nested_chain, optional in H;
  repeat match type of H with
         | context [if ?b then _ else _] => destruct b eqn:?
         end;
  simpl in H;
  repeat (apply elem_of_cons in H; destruct H as [H|H]);
  try (apply elem_of_nil in H; destruct H);
  try discriminate H.

(** The filters of a worker built by a run, found in the nested chain of
    the factory. *)
Lemma workers_built_nested_chain (w : World) (cfg : Config)
    (wk : worker.Worker) (hfs : list filter.HTTPFilter) :
  w_ReadConfig w = Ok cfg ->
  wk ∈ workers_built w ->
  hfs ∈ parse_chains (worker.filters wk) ->
  exists users tu tl fl,
    started w cfg users tu tl fl
    /\ hfs = nested_chain cfg (certbotConfig_of cfg) users.
Proof.
  intros Hcfg Hwk Hhfs.
  destruct (workers_built_factory w cfg wk Hcfg Hwk)
    as (users & tu & tl & fl & num & Hs & ->).
  rewrite factory_parse_chains in Hhfs.
  apply list_elem_of_singleton in Hhfs.
  exists users, tu, tl, fl. split; [exact Hs|exact Hhfs].
Qed.

Lemma auth_filter_in_nested_chain (cfg : Config) (cc : filter.CertbotConfig)
    (users us : gmap string iface) (cmp : string -> iface -> bool) :
  filter.NewAuthFilter us cmp ∈ nested_chain cfg cc users ->
  Filters_Auth_Enabled cfg = true /\ us = users /\ cmp = authCompare.
Proof.
  intros H. in_nested_chain H; injection H as -> ->; auto.
Qed.

(** X4: the Auth filter of every worker carries the table read from the
    passwords file, every stored secret being a digest, together with
    [authCompare]: looking a user up and comparing succeeds exactly for
    the users of the passwords file whose digest accepts the password. *)
Theorem auth_filter_table (w : World) (cfg : Config) (pepper : list Byte.byte)
    (au : gmap string hasher.Argon2Digest) (wk : worker.Worker)
    (hfs : list filter.HTTPFilter) (us : gmap string iface)
    (cmp : string -> iface -> bool) :
  w_ReadConfig w = Ok cfg ->
  w_Pepper w cfg = Ok pepper ->
  w_ReadPasswordsFile w (argon2_auth pepper) (Filters_Auth_PasswordsFile cfg)
    = Ok au ->
  wk ∈ workers_built w ->
  hfs ∈ parse_chains (worker.filters wk) ->
  filter.NewAuthFilter us cmp ∈ hfs ->
  Filters_Auth_Enabled cfg = true
  /\ (forall user, us !! user = IArgon2Digest <$> au !! user)
  /\ (forall user password,
        (exists v, us !! user = Some v /\ cmp password v = true)
        <-> (exists ad, au !! user = Some ad
                        /\ hasher.Compare ad password = 0%Z)).
Proof.
  intros Hcfg Hpep Hpw Hwk Hhfs Hin.
  destruct (workers_built_nested_chain w cfg wk hfs Hcfg Hwk Hhfs)
    as (users & tu & tl & fl & Hs & ->).
  apply auth_filter_in_nested_chain in Hin. destruct Hin as (Hen & -> & ->).
  destruct Hs as [_ (pepper' & Hpep' & Hu) _].
  rewrite Hpep in Hpep'. injection Hpep' as <-.
  destruct Hu as [Hdis|au' _ Hau].
  { rewrite Hen in Hdis. discriminate Hdis. }
  rewrite Hpw in Hau. injection Hau as <-.
  assert (Hlook : forall user,
            copy_users au ∅ !! user = IArgon2Digest <$> au !! user).
  { intros user. rewrite copy_users_lookup, lookup_empty.
    destruct (au !! user); reflexivity. }
  split; [exact Hen|]. split; [exact Hlook|].
  intros user password. rewrite Hlook. split.
  - intros (v & Hv & Hc). destruct (au !! user) as [ad|]; [|discriminate Hv].
    injection Hv as <-. exists ad. split; [reflexivity|].
    apply Z.eqb_eq. exact Hc.
  - intros (ad & -> & Hc). exists (IArgon2Digest ad).
    split; [reflexivity|]. simpl. apply Z.eqb_eq. exact Hc.
Qed.

Lemma auth_filter_table_witness :
  w_ReadConfig sample_world = Ok sample_config
  /\ w_Pepper sample_world sample_config = Ok []
  /\ w_ReadPasswordsFile sample_world (argon2_auth [])
       (Filters_Auth_PasswordsFile sample_config)
     = Ok {[ "alice" := sample_digest ]}
  /\ sample_worker ∈ workers_built sample_world
  /\ nested_chain sample_config (certbotConfig_of sample_config) sample_users
       ∈ parse_chains (worker.filters sample_worker)
  /\ filter.NewAuthFilter sample_users authCompare
       ∈ nested_chain sample_config (certbotConfig_of sample_config) sample_users
  /\ Filters_Auth_Enabled sample_config = true
  /\ (forall user,
        sample_users !! user
        = IArgon2Digest <$> ({[ "alice" := sample_digest ]}
                             : gmap string hasher.Argon2Digest) !! user)
  /\ (forall user password,
        (exists v, sample_users !! user = Some v /\ authCompare password v = true)
        <-> (exists ad,
               ({[ "alice" := sample_digest ]}
                : gmap string hasher.Argon2Digest) !! user = Some ad
               /\ hasher.Compare ad password = 0%Z)).
Proof.
  assert (Hwk : sample_worker ∈ workers_built sample_world)
    by (apply (list_elem_of_lookup_2 _ 0%nat); vm_compute; reflexivity).
  assert (Hhfs : nested_chain sample_config (certbotConfig_of sample_config)
                   sample_users
                 ∈ parse_chains (worker.filters sample_worker))
    by (apply (list_elem_of_lookup_2 _ 0%nat); reflexivity).
  assert (Hin : filter.NewAuthFilter sample_users authCompare
                ∈ nested_chain sample_config (certbotConfig_of sample_config)
                    sample_users)
    by (apply (list_elem_of_lookup_2 _ 2%nat); reflexivity).
  split; [reflexivity|]. split; [reflexivity|]. split; [reflexivity|].
  split; [exact Hwk|]. split; [exact Hhfs|]. split; [exact Hin|].
  apply (auth_filter_table sample_world sample_config []
           {[ "alice" := sample_digest ]} sample_worker
           (nested_chain sample_config (certbotConfig_of sample_config)
              sample_users)
           sample_users authCompare);
    [reflexivity|reflexivity|reflexivity|exact Hwk|exact Hhfs|exact Hin].
Defined.

(** ** The parameters of the filters *)

Lemma certbot_filter_in_nested_chain (cfg : Config) (cc cc' : filter.CertbotConfig)
    (users : gmap string iface) :
  filter.NewCertbotFilter cc' ∈ nested_chain cfg cc users ->
  Filters_Certbot_Enabled cfg = true /\ cc' = cc.
Proof.
  intros H. in_nested_chain H; injection H as ->; auto.
Qed.

Lemma tunnel_filter_in_nested_chain (cfg : Config) (cc : filter.CertbotConfig)
    (users : gmap string iface) (bs : Z) :
  filter.NewTunnelFilter bs ∈ nested_chain cfg cc users ->
  bs = Worker_BufferSize cfg.
Proof.
  intros H. in_nested_chain H; injection H as ->; reflexivity.
Qed.

Lemma forward_filter_in_nested_chain (cfg : Config) (cc : filter.CertbotConfig)
    (users : gmap string iface) (df : filter.DispatchFilter) :
  filter.NewForwardFilter df ∈ nested_chain cfg cc users ->
  df = filter.NewDispatchFilter
         (dispatcher.NewTCPDispatcher (Worker_BufferSize cfg)).
Proof.
  intros H. in_nested_chain H; injection H as ->; reflexivity.
Qed.

(** X5: in every worker a run builds, a Certbot filter is there only if
    Certbot is enabled and then carries the hostname, the webroot and the
    challenge path of the configuration; the Tunnel filter and the
    dispatcher behind the Forward filter both use the configured buffer
    size. *)
Theorem filter_parameters (w : World) (cfg : Config) (wk : worker.Worker)
    (hfs : list filter.HTTPFilter) :
  w_ReadConfig w = Ok cfg ->
  wk ∈ workers_built w ->
  hfs ∈ parse_chains (worker.filters wk) ->
  (forall cc,
     filter.NewCertbotFilter cc ∈ hfs ->
     Filters_Certbot_Enabled cfg = true
     /\ filter.Hostname cc = Filters_Certbot_Hostname cfg
     /\ filter.Webroot cc = Filters_Certbot_Webroot cfg
     /\ filter.ChallengePath cc = Filters_Certbot_ChallengePath cfg)
  /\ (forall bs, filter.NewTunnelFilter bs ∈ hfs -> bs = Worker_BufferSize cfg)
  /\ (forall df,
        filter.NewForwardFilter df ∈ hfs ->
        dispatcher.bufferSize (filter.dispatch df) = Worker_BufferSize cfg)
  /\ (exists bs df,
        filter.NewTunnelFilter bs ∈ hfs /\ filter.NewForwardFilter df ∈ hfs
        /\ bs = dispatcher.bufferSize (filter.dispatch df)).
Proof.
  intros Hcfg Hwk Hhfs.
  destruct (workers_built_nested_chain w cfg wk hfs Hcfg Hwk Hhfs)
    as (users & tu & tl & fl & _ & ->).
  split; [|split; [|split]].
  - intros cc Hin. apply certbot_filter_in_nested_chain in Hin.
    destruct Hin as [Hen ->]. split; [exact Hen|].
    unfold certbotConfig_of. rewrite Hen. simpl. auto.
  - intros bs Hin. apply tunnel_filter_in_nested_chain in Hin. exact Hin.
  - intros df Hin. apply forward_filter_in_nested_chain in Hin.
    subst df. reflexivity.
  - exists (Worker_BufferSize cfg),
      (filter.NewDispatchFilter
         (dispatcher.NewTCPDispatcher (Worker_BufferSize cfg))).
    unfold nested_chain. rewrite !elem_of_app.
    split; [|split; [|reflexivity]]; do 3 right; in_list.
Qed.

Lemma filter_parameters_witness :
  w_ReadConfig sample_world = Ok sample_config
  /\ sample_worker ∈ workers_built sample_world
  /\ nested_chain sample_config (certbotConfig_of sample_config) sample_users
       ∈ parse_chains (worker.filters sample_worker)
  /\ filter.NewCertbotFilter
       {| filter.Hostname := "proxy.example.org";
          filter.Webroot := "/var/www";
          filter.ChallengePath := "/.well-known/acme-challenge" |}
       ∈ nested_chain sample_config (certbotConfig_of sample_config) sample_users
  /\ (exists bs df,
        filter.NewTunnelFilter bs
          ∈ nested_chain sample_config (certbotConfig_of sample_config)
              sample_users
        /\ filter.NewForwardFilter df
             ∈ nested_chain sample_config (certbotConfig_of sample_config)
                 sample_users
        /\ bs = dispatcher.bufferSize (filter.dispatch df)).
Proof.
  assert (Hwk : sample_worker ∈ workers_built sample_world)
    by (apply (list_elem_of_lookup_2 _ 0%nat); vm_compute; reflexivity).
  assert (Hhfs : nested_chain sample_config (certbotConfig_of sample_config)
                   sample_users
                 ∈ parse_chains (worker.filters sample_worker))
    by (apply (list_elem_of_lookup_2 _ 0%nat); reflexivity).
  split; [reflexivity|]. split; [exact Hwk|]. split; [exact Hhfs|].
  split; [apply (list_elem_of_lookup_2 _ 1%nat); reflexivity|].
  apply (filter_parameters sample_world sample_config sample_worker
           (nested_chain sample_config (certbotConfig_of sample_config)
              sample_users)
           eq_refl Hwk Hhfs).
Defined.

(** ** The listen loop, call by call *)

Lemma bind_errors_app (w : World) (l1 l2 : list (string * string)) :
  forall bound,
    bind_errors w bound (l1 ++ l2)
    = match bind_errors w bound l1 with
      | Some e => Some e
      | None => bind_errors w (bound ++ l1) l2
      end.
Proof.
  induction l1 as [|[n a] l1 IH]; intros bound; simpl.
  - rewrite app_nil_r. reflexivity.
  - destruct (w_Listen w bound n a) as [e|]; [reflexivity|].
    rewrite IH, <- app_assoc. reflexivity.
Qed.

(** The loop over listeners that can all be bound. *)
Lemma listenLoop_all_bound (w : World) (addrs : list string) :
  forall s,
    bind_errors w (server.listeners s) (map listen_target addrs) = nil_error ->
    listenLoop w s addrs
    = (flat_map announce addrs,
       Next {| server.config := server.config s;
               server.listeners :=
                 server.listeners s ++ map listen_target addrs |}).
Proof.
  induction addrs as [|addr rest IH]; intros s Hb; simpl.
  - rewrite app_nil_r. destruct s; reflexivity.
  - simpl in Hb. unfold announce.
    destruct (listen_target addr) as [network a].
    unfold Listen. rewrite bind_call. simpl.
    destruct (w_Listen w (server.listeners s) network a) as [e|];
      [discriminate Hb|].
    simpl.
    match goal with
    | |- context [listenLoop w ?s' rest] => rewrite (IH s' Hb)
    end.
    simpl. rewrite <- app_assoc. reflexivity.
Qed.

(** The loop stops at the first listener that cannot be bound. *)
Lemma listenLoop_first_failure (w : World) (pre : list string) (addr : string)
    (post : list string) (e : string) :
  forall s,
    bind_errors w (server.listeners s) (map listen_target pre) = nil_error ->
    w_Listen w (server.listeners s ++ map listen_target pre)
      (fst (listen_target addr)) (snd (listen_target addr)) = Some e ->
    listenLoop w s (pre ++ addr :: post)
    = (flat_map announce pre
         ++ [EvListen (fst (listen_target addr)) (snd (listen_target addr))],
       Return (Some e)).
Proof.
  induction pre as [|p pre IH]; intros s Hb He; simpl.
  - simpl in He. rewrite app_nil_r in He.
    destruct (listen_target addr) as [network a]. simpl in He.
    unfold Listen. rewrite bind_call. simpl. rewrite He. reflexivity.
  - simpl in Hb, He. unfold announce.
    destruct (listen_target p) as [network a].
    unfold Listen. rewrite bind_call. simpl.
    destruct (w_Listen w (server.listeners s) network a) as [e'|];
      [discriminate Hb|].
    simpl.
    match goal with
    | |- context [listenLoop w ?s' (pre ++ addr :: post)] =>
        rewrite (IH s' Hb)
    end.
    + reflexivity.
    + simpl. rewrite <- app_assoc. exact He.
Qed.

(** ** A bind failure, exactly *)

(** X6: when the credentials are in place and a listener cannot be bound,
    [runServe] has announced the listeners before it, tried that one,
    tried none after it, and returns the error of [Listen] as it is; the
    listeners already open are not closed. *)
Theorem stops_at_first_bind_failure (w : World) (cfg : Config)
    (pepper : list Byte.byte) (pre : list string) (addr : string)
    (post : list string) (e : string) :
  credentials_ok w cfg pepper ->
  first_bind_failure w cfg pre addr post e ->
  exists users,
    runServe w
    = ([EvReadConfig; EvPepper] ++ passwords_call cfg pepper
         ++ [EvServerNew (server_config cfg users)]
         ++ flat_map announce pre
         ++ [EvListen (fst (listen_target addr)) (snd (listen_target addr));
             EvSync],
       Returned (Some e)).
Proof.
  intros (Hcfg & Hpep & Hpw) (Hsplit & Hb & He).
  unfold runServe, runServe_body, passwords_call.
  rewrite Hcfg. simpl. rewrite Hpep. simpl.
  destruct (Filters_Auth_Enabled cfg) eqn:Hen; simpl.
  - destruct (Hpw eq_refl) as [au Hau]. unfold argon2_auth in Hau.
    rewrite Hau. simpl. rewrite Hsplit.
    exists (copy_users au ∅).
    match goal with
    | |- context [listenLoop w ?s (pre ++ addr :: post)] =>
        rewrite (listenLoop_first_failure w pre addr post e s Hb He)
    end.
    simpl. rewrite <- !app_assoc. reflexivity.
  - rewrite Hsplit. exists ∅.
    match goal with
    | |- context [listenLoop w ?s (pre ++ addr :: post)] =>
        rewrite (listenLoop_first_failure w pre addr post e s Hb He)
    end.
    simpl. rewrite <- !app_assoc. reflexivity.
Qed.

Lemma stops_at_first_bind_failure_witness :
  credentials_ok world_with_socket_taken sample_config []
  /\ first_bind_failure world_with_socket_taken sample_config
       ["0.0.0.0:8080"] "unix:/run/higuchi.sock" [] "address already in use"
  /\ exists users,
       runServe world_with_socket_taken
       = ([EvReadConfig; EvPepper] ++ passwords_call sample_config []
            ++ [EvServerNew (server_config sample_config users)]
            ++ flat_map announce ["0.0.0.0:8080"]
            ++ [EvListen (fst (listen_target "unix:/run/higuchi.sock"))
                  (snd (listen_target "unix:/run/higuchi.sock"));
                EvSync],
          Returned (Some "address already in use")).
Proof.
  assert (Hc : credentials_ok world_with_socket_taken sample_config []).
  { split; [reflexivity|]. split; [reflexivity|].
    intros _. eexists. reflexivity. }
  assert (Hf : first_bind_failure world_with_socket_taken sample_config
                 ["0.0.0.0:8080"] "unix:/run/higuchi.sock" []
                 "address already in use").
  { split; [reflexivity|]. split; reflexivity. }
  split; [exact Hc|]. split; [exact Hf|].
  apply (stops_at_first_bind_failure world_with_socket_taken sample_config []
           ["0.0.0.0:8080"] "unix:/run/higuchi.sock" []
           "address already in use" Hc Hf).
Defined.

(** ** The order of a successful startup *)

(** X7: a successful startup makes its calls in this order: the
    configuration, the pepper, the passwords file if Auth is enabled, the
    server, then for each listener in turn the bind and its log line, and
    at last the subscription to the stop signals.  What follows is
    nothing, or the received signal, a log line naming it ("interrupt" or
    "terminated"), [Close] and the deferred [Sync]. *)
Theorem startup_order (w : World) (cfg : Config) :
  startup_ok w cfg ->
  exists pepper users tail,
    w_Pepper w cfg = Ok pepper
    /\ fst (runServe w) = startup_calls cfg pepper users ++ tail
    /\ (tail = []
        \/ tail = [EvRecv SIGINT;
                   EvInfo "Received stop signal" [("signal", "interrupt")];
                   EvClose; EvSync]
        \/ tail = [EvRecv SIGTERM;
                   EvInfo "Received stop signal" [("signal", "terminated")];
                   EvClose; EvSync]).
Proof.
  intros (Hcfg & (pepper & Hpep & Hpw) & Hb).
  exists pepper.
  pose proof (recv_has_shape stop_signals (w_signals w)) as Hr.
  unfold stop_signals in Hr.
  unfold runServe, runServe_body, startup_calls, passwords_call.
  rewrite Hcfg. simpl. rewrite Hpep. simpl.
  assert (Htail : forall sig,
            sig ∈ [os_Interrupt; SIGTERM] ->
            [EvRecv sig;
             EvInfo "Received stop signal" [("signal", Signal_String sig)];
             EvClose; EvSync]
            = [EvRecv SIGINT;
               EvInfo "Received stop signal" [("signal", "interrupt")];
               EvClose; EvSync]
            \/ [EvRecv sig;
                EvInfo "Received stop signal" [("signal", Signal_String sig)];
                EvClose; EvSync]
               = [EvRecv SIGTERM;
                  EvInfo "Received stop signal" [("signal", "terminated")];
                  EvClose; EvSync]).
  { intros sig Hin. unfold os_Interrupt in Hin.
    apply elem_of_cons in Hin. destruct Hin as [->|Hin]; [left; reflexivity|].
    apply elem_of_cons in Hin. destruct Hin as [->|Hin]; [right; reflexivity|].
    apply elem_of_nil in Hin. destruct Hin. }
  destruct (Filters_Auth_Enabled cfg) eqn:Hen; simpl.
  - destruct (Hpw eq_refl) as [au Hau]. unfold argon2_auth in Hau.
    rewrite Hau. simpl. exists (copy_users au ∅).
    match goal with
    | |- context [listenLoop w ?s (Server_Listeners cfg)] =>
        rewrite (listenLoop_all_bound w (Server_Listeners cfg) s Hb)
    end.
    simpl.
    destruct (recv [os_Interrupt; SIGTERM] (w_signals w)) as [tr fr].
    inversion Hr as [Hall Htr|pre sig post Heq Hpre Hnin Hex Htr
                    |pre sig post Heq Hpre Hin Htr];
      subst tr fr; simpl; rewrite <- ?app_assoc; simpl.
    + exists []. split; [reflexivity|]. split; [|left; reflexivity].
      rewrite app_nil_r. reflexivity.
    + exists []. split; [reflexivity|]. split; [|left; reflexivity].
      rewrite app_nil_r. reflexivity.
    + exists [EvRecv sig;
              EvInfo "Received stop signal" [("signal", Signal_String sig)];
              EvClose; EvSync].
      split; [reflexivity|]. split; [|right; apply Htail; exact Hin].
      simpl. rewrite <- ?app_assoc. reflexivity.
  - exists ∅.
    match goal with
    | |- context [listenLoop w ?s (Server_Listeners cfg)] =>
        rewrite (listenLoop_all_bound w (Server_Listeners cfg) s Hb)
    end.
    simpl.
    destruct (recv [os_Interrupt; SIGTERM] (w_signals w)) as [tr fr].
    inversion Hr as [Hall Htr|pre sig post Heq Hpre Hnin Hex Htr
                    |pre sig post Heq Hpre Hin Htr];
      subst tr fr; simpl; rewrite <- ?app_assoc; simpl.
    + exists []. split; [reflexivity|]. split; [|left; reflexivity].
      rewrite app_nil_r. reflexivity.
    + exists []. split; [reflexivity|]. split; [|left; reflexivity].
      rewrite app_nil_r. reflexivity.
    + exists [EvRecv sig;
              EvInfo "Received stop signal" [("signal", Signal_String sig)];
              EvClose; EvSync].
      split; [reflexivity|]. split; [|right; apply Htail; exact Hin].
      simpl. rewrite <- ?app_assoc. reflexivity.
Qed.

Lemma startup_order_witness :
  startup_ok sample_world sample_config
  /\ exists pepper users tail,
       w_Pepper sample_world sample_config = Ok pepper
       /\ fst (runServe sample_world)
          = startup_calls sample_config pepper users ++ tail
       /\ (tail = []
           \/ tail = [EvRecv SIGINT;
                      EvInfo "Received stop signal" [("signal", "interrupt")];
                      EvClose; EvSync]
           \/ tail = [EvRecv SIGTERM;
                      EvInfo "Received stop signal" [("signal", "terminated")];
                      EvClose; EvSync]).
Proof.
  assert (Hok : startup_ok sample_world sample_config).
  { split; [reflexivity|]. split; [|reflexivity].
    exists []. split; [reflexivity|]. intros _. eexists. reflexivity. }
  split; [exact Hok|].
  apply (startup_order sample_world sample_config Hok).
Defined.

(** ** Counting calls *)

Lemma calls_app (p : Event -> bool) (t1 t2 : list Event) :
  calls p (t1 ++ t2) = calls p t1 + calls p t2.
Proof. unfold calls. rewrite List.filter_app, length_app. reflexivity. Qed.

Lemma calls_listen_events (p : Event -> bool) (t : list Event) :
  (forall n a, p (EvListen n a) = false) ->
  (forall m, p (EvInfo m []) = false) ->
  Forall listen_event t -> calls p t = 0.
Proof.
  intros Hl Hi. unfold calls.
  induction 1 as [|e t He _ IH]; simpl; [reflexivity|].
  destruct He; [rewrite Hl|rewrite Hi]; exact IH.
Qed.

(** A started run whose listen loop went through started well. *)
Lemma started_next (w : World) (cfg : Config) (users : gmap string iface)
    (tu tl : list Event) (s : server.Server) :
  started w cfg users tu tl (Next s) ->
  startup_ok w cfg
  /\ server.listeners s = map listen_target (Server_Listeners cfg).
Proof.
  intros Hs. pose proof (started_flow _ _ _ _ _ _ Hs) as Hfl.
  destruct Hs as [Hcfg (pepper & Hpep & Hu) _].
  destruct (bind_errors w [] (map listen_target (Server_Listeners cfg)))
    as [e|] eqn:Hb; destruct Hfl as [Hfl _]; [discriminate Hfl|].
  injection Hfl as ->. split; [|reflexivity].
  split; [exact Hcfg|]. split; [|exact Hb].
  exists pepper. split; [exact Hpep|]. intros Hen.
  destruct Hu as [Hdis|au _ Hau].
  - rewrite Hen in Hdis. discriminate Hdis.
  - exists au. exact Hau.
Qed.

(** ** What a return value tells *)

(** X8: [runServe] returns nil only at the end of a graceful stop: startup
    succeeded, SIGINT or SIGTERM was received, and [Close] returned
    nil. *)
Theorem nil_only_after_graceful_stop (w : World) :
  snd (runServe w) = Returned nil_error ->
  exists cfg sig,
    startup_ok w cfg
    /\ (sig = SIGINT \/ sig = SIGTERM)
    /\ EvRecv sig ∈ fst (runServe w)
    /\ EvClose ∈ fst (runServe w)
    /\ w_Close w (map listen_target (Server_Listeners cfg)) = nil_error.
Proof.
  pose proof (runServe_shape w) as H.
  destruct (runServe w) as [t o]. simpl in *.
  inversion H as [err Hc|cfg err Hc Hp|cfg pepper err Hc Hp He Hpw
                 |cfg users tu tl e Hs|cfg users tu tl s Hs Hr
                 |cfg users tu tl s sig Hs Hr|cfg users tu tl s sig Hs Hr];
    subst t o; intros Ho; unfold Errorf, nil_error in Ho; try discriminate Ho.
  destruct (started_next _ _ _ _ _ _ Hs) as [Hok Hls].
  rewrite Hls in Ho. injection Ho as Ho.
  exists cfg, sig. split; [exact Hok|].
  split.
  { inversion Hr as [| |pre sg post Heq Hpre Hin]. subst sg.
    unfold stop_signals, os_Interrupt in Hin.
    apply elem_of_cons in Hin. destruct Hin as [->|Hin]; [left; reflexivity|].
    apply elem_of_cons in Hin. destruct Hin as [->|Hin]; [right; reflexivity|].
    apply elem_of_nil in Hin. destruct Hin. }
  split; [|split; [|exact Ho]].
  - rewrite !elem_of_app. do 4 right. in_list.
  - rewrite !elem_of_app. do 4 right. in_list.
Qed.

Lemma nil_only_after_graceful_stop_witness :
  snd (runServe sample_world) = Returned nil_error
  /\ exists cfg sig,
       startup_ok sample_world cfg
       /\ (sig = SIGINT \/ sig = SIGTERM)
       /\ EvRecv sig ∈ fst (runServe sample_world)
       /\ EvClose ∈ fst (runServe sample_world)
       /\ w_Close sample_world (map listen_target (Server_Listeners cfg))
          = nil_error.
Proof.
  split; [reflexivity|].
  apply (nil_only_after_graceful_stop sample_world). reflexivity.
Defined.

(** X9: every error [runServe] returns comes from one of five places: the
    configuration, the pepper and the passwords file, each wrapped in its
    own message; the first listener that could not be bound, as [Listen]
    returned it; or [Close] after a stop signal, as [Close] returned
    it. *)
Theorem error_provenance (w : World) (e : string) :
  snd (runServe w) = Returned (Some e) ->
  (exists err,
     w_ReadConfig w = Err err /\ e = "error while reading config: " +:+ err)
  \/ (exists cfg err,
        w_ReadConfig w = Ok cfg /\ w_Pepper w cfg = Err err
        /\ e = "error while decoding pepper: " +:+ err)
  \/ (exists cfg pepper err,
        w_ReadConfig w = Ok cfg /\ w_Pepper w cfg = Ok pepper
        /\ Filters_Auth_Enabled cfg = true
        /\ w_ReadPasswordsFile w (argon2_auth pepper)
             (Filters_Auth_PasswordsFile cfg) = Err err
        /\ e = "error while reading passwords file: " +:+ err)
  \/ (exists cfg,
        w_ReadConfig w = Ok cfg
        /\ bind_errors w [] (map listen_target (Server_Listeners cfg)) = Some e)
  \/ (exists cfg,
        startup_ok w cfg
        /\ w_Close w (map listen_target (Server_Listeners cfg)) = Some e).
Proof.
  pose proof (runServe_shape w) as H.
  destruct (runServe w) as [t o]. simpl in *.
  inversion H as [err Hc|cfg err Hc Hp|cfg pepper err Hc Hp He Hpw
                 |cfg users tu tl e' Hs|cfg users tu tl s Hs Hr
                 |cfg users tu tl s sig Hs Hr|cfg users tu tl s sig Hs Hr];
    subst t o; intros Ho; unfold Errorf in Ho; try discriminate Ho.
  - injection Ho as <-. left. exists err. split; [exact Hc|reflexivity].
  - injection Ho as <-. right. left. exists cfg, err.
    split; [exact Hc|]. split; [exact Hp|reflexivity].
  - injection Ho as <-. do 2 right. left. exists cfg, pepper, err.
    split; [exact Hc|]. split; [exact Hp|]. split; [exact He|].
    split; [exact Hpw|reflexivity].
  - injection Ho as ->. do 3 right. left. exists cfg.
    split; [exact (st_config _ _ _ _ _ _ Hs)|].
    pose proof (started_flow _ _ _ _ _ _ Hs) as Hfl.
    destruct (bind_errors w [] (map listen_target (Server_Listeners cfg)))
      as [e''|]; destruct Hfl as [Hfl _]; [|discriminate Hfl].
    injection Hfl as ->. reflexivity.
  - destruct (started_next _ _ _ _ _ _ Hs) as [Hok Hls].
    rewrite Hls in Ho. injection Ho as Ho.
    do 4 right. exists cfg. split; [exact Hok|exact Ho].
Qed.

Lemma error_provenance_witness :
  snd (runServe world_without_passwords)
  = Returned (Some "error while reading passwords file: permission denied")
  /\ exists cfg pepper err,
       w_ReadConfig world_without_passwords = Ok cfg
       /\ w_Pepper world_without_passwords cfg = Ok pepper
       /\ Filters_Auth_Enabled cfg = true
       /\ w_ReadPasswordsFile world_without_passwords (argon2_auth pepper)
            (Filters_Auth_PasswordsFile cfg) = Err err
       /\ "error while reading passwords file: permission denied"
          = "error while reading passwords file: " +:+ err.
Proof.
  split; [reflexivity|].
  destruct (error_provenance world_without_passwords
              "error while reading passwords file: permission denied" eq_refl)
    as [(err & H & _)
       |[(cfg & err & _ & H & _)
        |[H|[(cfg & Hc & H)|(cfg & (Hc & _) & H)]]]].
  - discriminate H.
  - discriminate H.
  - exact H.
  - injection Hc as <-. discriminate H.
  - injection Hc as <-. discriminate H.
Defined.

(** ** The deferred [Sync] and calls made at most once *)

Lemma users_loaded_calls (w : World) (cfg : Config) (pepper : list Byte.byte)
    (tu : list Event) (users : gmap string iface) (p : Event -> bool) :
  users_loaded w cfg pepper tu users ->
  calls p tu <= 1
  /\ ((forall aa n, p (EvReadPasswordsFile aa n) = false) -> calls p tu = 0).
Proof.
  destruct 1 as [_|au _ _]; unfold calls; simpl.
  - split; [lia|reflexivity].
  - destruct (p (EvReadPasswordsFile _ _)) eqn:Hp; simpl.
    + split; [lia|]. intros H. rewrite H in Hp. discriminate Hp.
    + split; [lia|reflexivity].
Qed.

(** The calls of a started run before whatever follows the listen
    loop. *)
Lemma started_calls (w : World) (cfg : Config) (users : gmap string iface)
    (tu tl : list Event) (fl : Flow server.Server) (p : Event -> bool)
    (tail : list Event) :
  started w cfg users tu tl fl ->
  (forall n a, p (EvListen n a) = false) ->
  (forall m, p (EvInfo m []) = false) ->
  calls p ([EvReadConfig; EvPepper] ++ tu
             ++ [EvServerNew (server_config cfg users)] ++ tl ++ tail)
  = calls p [EvReadConfig; EvPepper] + calls p tu
    + calls p [EvServerNew (server_config cfg users)] + calls p tail.
Proof.
  intros Hs Hl Hi.
  rewrite !calls_app,
    (calls_listen_events p tl Hl Hi (started_listen_events _ _ _ _ _ _ Hs)).
  lia.
Qed.

(** X10: once the configuration has been read, every return of [runServe]
    ends with the deferred [logger.Sync], called exactly once; a run that
    fails to read the configuration, or that does not return, never calls
    it. *)
Theorem deferred_sync (w : World) :
  match w_ReadConfig w, snd (runServe w) with
  | Ok _, Returned _ =>
      exists t, fst (runServe w) = t ++ [EvSync] /\ calls is_sync t = 0
  | _, _ => calls is_sync (fst (runServe w)) = 0
  end.
Proof.
  pose proof (runServe_shape w) as H.
  destruct (runServe w) as [t o]. simpl in *.
  inversion H as [err Hc|cfg err Hc Hp|cfg pepper err Hc Hp He Hpw
                 |cfg users tu tl e Hs|cfg users tu tl s Hs Hr
                 |cfg users tu tl s sig Hs Hr|cfg users tu tl s sig Hs Hr];
    subst t o;
    try rewrite Hc; try rewrite (st_config _ _ _ _ _ _ Hs).
  - reflexivity.
  - exists [EvReadConfig; EvPepper]. split; reflexivity.
  - eexists [EvReadConfig; EvPepper; EvReadPasswordsFile _ _].
    split; reflexivity.
  - exists ([EvReadConfig; EvPepper] ++ tu
              ++ [EvServerNew (server_config cfg users)] ++ tl ++ []).
    split; [rewrite <- !app_assoc; reflexivity|].
    rewrite (started_calls _ _ _ _ _ _ is_sync [] Hs) by reflexivity.
    destruct Hs as [_ (pepper & _ & Hu) _].
    destruct (users_loaded_calls _ _ _ _ _ is_sync Hu) as [_ ->]; reflexivity.
  - rewrite (started_calls _ _ _ _ _ _ is_sync _ Hs) by reflexivity.
    destruct Hs as [_ (pepper & _ & Hu) _].
    destruct (users_loaded_calls _ _ _ _ _ is_sync Hu) as [_ ->]; reflexivity.
  - rewrite (started_calls _ _ _ _ _ _ is_sync _ Hs) by reflexivity.
    destruct Hs as [_ (pepper & _ & Hu) _].
    destruct (users_loaded_calls _ _ _ _ _ is_sync Hu) as [_ ->]; reflexivity.
  - exists ([EvReadConfig; EvPepper] ++ tu
              ++ [EvServerNew (server_config cfg users)] ++ tl
              ++ [EvNotify stop_signals; EvRecv sig;
                  EvInfo "Received stop signal" [("signal", Signal_String sig)];
                  EvClose]).
    split; [rewrite <- !app_assoc; reflexivity|].
    rewrite (started_calls _ _ _ _ _ _ is_sync _ Hs) by reflexivity.
    destruct Hs as [_ (pepper & _ & Hu) _].
    destruct (users_loaded_calls _ _ _ _ _ is_sync Hu) as [_ ->]; reflexivity.
Qed.

(** X11: [runServe] starts by reading the configuration, and it reads the
    configuration, decodes the pepper, reads the passwords file, creates
    a server, subscribes to signals, receives a signal, calls [Close] and
    calls [Sync] at most once each. *)
Theorem calls_at_most_once (w : World) :
  (exists rest, fst (runServe w) = EvReadConfig :: rest)
  /\ Forall (fun p => calls p (fst (runServe w)) <= 1) once_only.
Proof.
  pose proof (runServe_shape w) as H.
  destruct (runServe w) as [t o]. simpl in *.
  inversion H as [err Hc|cfg err Hc Hp|cfg pepper err Hc Hp He Hpw
                 |cfg users tu tl e Hs|cfg users tu tl s Hs Hr
                 |cfg users tu tl s sig Hs Hr|cfg users tu tl s sig Hs Hr];
    subst t o;
    (split; [eexists; reflexivity|]);
    unfold once_only; repeat (apply Forall_cons; split); try apply Forall_nil;
    try (unfold calls; simpl; lia);
    (rewrite (started_calls _ _ _ _ _ _ _ _ Hs) by reflexivity);
    destruct Hs as [_ (pepper & _ & Hu) _];
    match goal with
    | |- calls is_read_passwords _ + _ + _ + _ <= 1 =>
        destruct (users_loaded_calls _ _ _ _ _ is_read_passwords Hu) as [Hle _];
        unfold calls in *; simpl in *; lia
    | |- calls ?p _ + _ + _ + _ <= 1 =>
        destruct (users_loaded_calls _ _ _ _ _ p Hu) as [_ ->];
        [unfold calls; simpl; lia|reflexivity]
    end.
Qed.

(** * Properties of the earlier revision *)

Lemma tbind_tcall {E B} (e : E) (k : unit -> T B) :
  tbind (tcall e) k = (e :: fst (k tt), snd (k tt)).
Proof. unfold tcall. simpl. destruct (k tt); reflexivity. Qed.

(** ** Failures before the server exists *)



(** ** The two revisions of [runServe] side by side *)

Lemma v1_listenLoop_sim (w : World) (addrs : list string) :
  forall s1 s2,
    v1_listeners s1 = server.listeners s2 ->
    v1_listen_calls (fst (v1_listenLoop w s1 addrs))
    = listen_calls (fst (listenLoop w s2 addrs))
    /\ same_flow (snd (v1_listenLoop w s1 addrs)) (snd (listenLoop w s2 addrs)).
Proof.
  induction addrs as [|addr rest IH]; intros s1 s2 Hs; simpl.
  - split; [reflexivity|exact Hs].
  - change (if HasPrefix addr unixAddressPrefix
            then ("unix", slice_from addr unixAddressPrefixLength)
            else ("tcp", addr)) with (listen_target addr).
    destruct (listen_target addr) as [network a].
    unfold v1_Listen, Listen. rewrite tbind_tcall, bind_call. simpl.
    rewrite Hs.
    destruct (w_Listen w (server.listeners s2) network a) as [e|]; simpl.
    + split; reflexivity.
    + match goal with
      | |- context [v1_listenLoop w ?s1' rest] =>
          match goal with
          | |- context [listenLoop w ?s2' rest] =>
              destruct (IH s1' s2') as [Hc Hf]; [simpl; try rewrite Hs; reflexivity|];
              destruct (v1_listenLoop w s1' rest) as [t1 f1];
              destruct (listenLoop w s2' rest) as [t2 f2]
          end
      end.
      simpl in *. split; [rewrite Hc; reflexivity|exact Hf].
Qed.

Lemma v1_recv_sim (sigCh incoming : list Signal) :
  snd (v1_recv sigCh incoming) = snd (recv sigCh incoming).
Proof.
  induction incoming as [|sig later IH]; simpl; [reflexivity|].
  case_bool_decide; [reflexivity|].
  destruct (default_exits sig); [reflexivity|exact IH].
Qed.

Lemma v1_recv_no_listen (sigCh incoming : list Signal) :
  v1_listen_calls (fst (v1_recv sigCh incoming)) = [].
Proof.
  induction incoming as [|sig later IH]; simpl; [reflexivity|].
  case_bool_decide; [reflexivity|].
  destruct (default_exits sig); [reflexivity|exact IH].
Qed.

Lemma recv_no_listen (sigCh incoming : list Signal) :
  listen_calls (fst (recv sigCh incoming)) = [].
Proof.
  induction incoming as [|sig later IH]; simpl; [reflexivity|].
  case_bool_decide; [reflexivity|].
  destruct (default_exits sig); [reflexivity|exact IH].
Qed.

(** After the credentials, the logger and the server: the listen loop,
    the wait and the close of the two revisions, side by side. *)
Ltac revisions_side_by_side w :=
  let Hc := fresh "Hc" in
  let Hf := fresh "Hf" in
  let Hr := fresh "Hr" in
  let Hn1 := fresh "Hn1" in
  let Hn2 := fresh "Hn2" in
  let t1 := fresh "t1" in
  let t2 := fresh "t2" in
  let f1 := fresh "f1" in
  let f2 := fresh "f2" in
  let r1 := fresh "r1" in
  let r2 := fresh "r2" in
  let g1 := fresh "g1" in
  let g2 := fresh "g2" in
  match goal with
  | |- context [v1_listenLoop w ?s1 ?l] =>
      match goal with
      | |- context [listenLoop w ?s2 l] =>
          destruct (v1_listenLoop_sim w l s1 s2 eq_refl) as [Hc Hf];
          destruct (v1_listenLoop w s1 l) as [t1 f1];
          destruct (listenLoop w s2 l) as [t2 f2]
      end
  end;
  pose proof (v1_recv_sim [os_Interrupt; SIGTERM] (w_signals w)) as Hr;
  pose proof (v1_recv_no_listen [os_Interrupt; SIGTERM] (w_signals w)) as Hn1;
  pose proof (recv_no_listen [os_Interrupt; SIGTERM] (w_signals w)) as Hn2;
  destruct (v1_recv [os_Interrupt; SIGTERM] (w_signals w)) as [r1 g1];
  destruct (recv [os_Interrupt; SIGTERM] (w_signals w)) as [r2 g2];
  unfold v1_listen_calls, listen_calls in *; simpl in *; subst g1;
  destruct f1, f2; simpl in Hf; try contradiction; subst;
  try destruct g2; simpl;
  rewrite ?flat_map_app; simpl; rewrite ?flat_map_app; simpl;
  rewrite ?Hn1, ?Hn2, ?Hc, ?Hf, ?app_nil_r; split; reflexivity.

(** X13: when the logger of the earlier revision can be built, the two
    revisions end the same way in every world (the same error, the same
    result of [Close], or the same wait without return) and make the same
    calls of [Listen] in the same order. *)
Theorem revisions_same_outcome (vw : v1_World) :
  (forall cfg,
     w_ReadConfig (v1_base vw) = Ok cfg ->
     v1_logger_error vw cfg = nil_error) ->
  snd (v1_runServe vw) = snd (runServe (v1_base vw))
  /\ v1_listen_calls (fst (v1_runServe vw))
     = listen_calls (fst (runServe (v1_base vw))).
Proof.
  intros Hlog.
  unfold v1_runServe, v1_runServe_body, runServe, runServe_body.
  destruct vw as [w wp wd]. simpl in *.
  destruct (w_ReadConfig w) as [cfg|err]; simpl; [|split; reflexivity].
  specialize (Hlog cfg eq_refl). unfold v1_logger_error in Hlog.
  destruct (w_Pepper w cfg) as [pepper|err]; simpl; [|split; reflexivity].
  destruct (Filters_Auth_Enabled cfg); simpl.
  - destruct (w_ReadPasswordsFile w _ _) as [au|err]; simpl;
      [|split; reflexivity].
    destruct (String.eqb (Logger_Mode cfg) "production"); simpl in *;
      rewrite Hlog; simpl; revisions_side_by_side w.
  - destruct (String.eqb (Logger_Mode cfg) "production"); simpl in *;
      rewrite Hlog; simpl; revisions_side_by_side w.
Qed.

Lemma revisions_same_outcome_witness :
  (forall cfg,
     w_ReadConfig (v1_base v1_sample_world) = Ok cfg ->
     v1_logger_error v1_sample_world cfg = nil_error)
  /\ snd (v1_runServe v1_sample_world) = Returned nil_error
  /\ snd (v1_runServe v1_sample_world) = snd (runServe (v1_base v1_sample_world))
  /\ v1_listen_calls (fst (v1_runServe v1_sample_world))
     = listen_calls (fst (runServe (v1_base v1_sample_world))).
Proof.
  assert (H : forall cfg,
            w_ReadConfig (v1_base v1_sample_world) = Ok cfg ->
            v1_logger_error v1_sample_world cfg = nil_error).
  { intros cfg Hc. injection Hc as <-. reflexivity. }
  split; [exact H|]. split; [reflexivity|].
  apply (revisions_same_outcome v1_sample_world H).
Defined.

(** * The slice of a local-socket address *)

Lemma string_length_append (s1 s2 : string) :
  String.length (s1 +:+ s2) = String.length s1 + String.length s2.
Proof.
  induction s1 as [|c s1 IH]; simpl; [reflexivity|]. rewrite IH. reflexivity.
Qed.

(** X2: where the loop slices the address, the address is at least as long as
    the prefix, so the slice expression is within bounds; the address it
    keeps is shorter by exactly the five characters of "unix:".  An
    address shorter than the prefix is a TCP address, unchanged. *)
Theorem listen_target_bounds (addr : string) :
  (fst (listen_target addr) = "unix" ->
   unixAddressPrefixLength <= String.length addr
   /\ String.length (snd (listen_target addr)) + 5 = String.length addr)
  /\ (String.length addr < unixAddressPrefixLength ->
      listen_target addr = ("tcp", addr)).
Proof.
  unfold listen_target.
  destruct (HasPrefix addr unixAddressPrefix) eqn:Hp; simpl.
  - apply HasPrefix_split in Hp.
    assert (Hlen : String.length addr
                   = unixAddressPrefixLength
                     + String.length (slice_from addr unixAddressPrefixLength)).
    { rewrite Hp at 1. rewrite string_length_append. reflexivity. }
    change unixAddressPrefixLength with 5 in *.
    split; [intros _; lia|intros H; lia].
  - split; [discriminate|reflexivity].
Qed.

Lemma listen_target_bounds_witness :
  (fst (listen_target "unix:") = "unix"
   /\ listen_target "unix:" = ("unix", "")
   /\ unixAddressPrefixLength <= String.length "unix:"
   /\ String.length (snd (listen_target "unix:")) + 5 = String.length "unix:")
  /\ (String.length "unix" < unixAddressPrefixLength
      /\ listen_target "unix" = ("tcp", "unix")).
Proof.
  split.
  - split; [reflexivity|]. split; [reflexivity|].
    apply (proj1 (listen_target_bounds "unix:")). reflexivity.
  - split; [vm_compute; lia|].
    apply (proj2 (listen_target_bounds "unix")). vm_compute. lia.
Defined.
